(** * LedFx [ledfxcontroller/utils.py]: registry, schema composition, loader

    A shallow embedding of the registry layer of [utils.py]:
    the reflection helpers [hasattr_explicit] and [getattr_explicit], the class
    [BaseRegistry] ([__init_subclass__], [no_registration], [schema],
    [registry]) and the class [RegistryLoader] ([create], [destroy]).

    Python objects that the code mutates and shares live in a store: type
    objects in [classes], the dict objects bound to [_registry] in [dicts].
    A loader is a record that its methods pass along explicitly.  A method
    that raises returns the exception next to the state it leaves behind. *)

From Stdlib Require Import Ascii.
From stdpp Require Import gmap strings list fin_maps sorting.

Open Scope Z_scope.

(** ** Values *)

(** Leaves of a configuration mapping and field defaults. *)
Inductive atom :=
| ANone
| ABool (b : bool)
| AInt (z : Z)
| AStr (s : string).

Global Instance atom_eq_dec : EqDecision atom.
Proof. solve_decision. Defined.

(** The types a schema field can ask for. *)
Inductive tyname := TBool | TInt | TStr.

Global Instance tyname_eq_dec : EqDecision tyname.
Proof. solve_decision. Defined.

(** [isinstance(v, ty)]: a Python [bool] is an [int] as well. *)
Definition has_type (v : atom) (ty : tyname) : bool :=
  match v, ty with
  | ABool _, TBool => true
  | ABool _, TInt => true
  | AInt _, TInt => true
  | AStr _, TStr => true
  | _, _ => false
  end.

(** One declared field: its type, whether it is required, its default. *)
Record field := Field {
  f_type : tyname;
  f_required : bool;
  f_default : option atom
}.

Global Instance field_eq_dec : EqDecision field.
Proof. solve_decision. Defined.

(** The extra-field policy of a validator. *)
Inductive extra_policy := PREVENT_EXTRA | ALLOW_EXTRA.

Global Instance extra_policy_eq_dec : EqDecision extra_policy.
Proof. solve_decision. Defined.

Abbreviation config := (gmap string atom).
Abbreviation fieldset := (gmap string field).

(** Modelled from the spec: [vol.Schema] of the voluptuous library, which is
    imported by [utils.py] and is not part of this repository.  A schema is a
    set of named fields (type, required, default) with an extra-field policy;
    [s.schema] is its field set. *)
Record Schema := MkSchema {
  schema_fields : fieldset;
  schema_extra : extra_policy
}.

Global Instance Schema_eq_dec : EqDecision Schema.
Proof. solve_decision. Defined.

(** [vol.Schema({})]: no field, the library's default policy. *)
Definition Schema_empty : Schema := MkSchema ∅ PREVENT_EXTRA.

(** Modelled from the spec: [Schema.extend] of voluptuous.  The fields of the
    extension are merged into the receiver: a field named on both sides takes
    the extension's declaration, the others persist; the receiver's policy is
    kept. *)
Definition extend (s : Schema) (ext : fieldset) : Schema :=
  MkSchema (ext ∪ schema_fields s) (schema_extra s).

(** What the validator decides for one key. *)
Inductive verdict :=
| Keep (v : atom)
| Offending.

Definition judge (pol : extra_policy) (fo : option field) (vo : option atom)
  : option verdict :=
  match fo, vo with
  | Some f, Some v => if has_type v (f_type f) then Some (Keep v) else Some Offending
  | Some f, None =>
      match f_default f with
      | Some d => Some (Keep d)
      | None => if f_required f then Some Offending else None
      end
  | None, Some v =>
      match pol with
      | ALLOW_EXTRA => Some (Keep v)
      | PREVENT_EXTRA => Some Offending
      end
  | None, None => None
  end.

Definition verdicts (s : Schema) (c : config) : gmap string verdict :=
  merge (judge (schema_extra s)) (schema_fields s) c.

Definition kept (v : verdict) : option atom :=
  match v with Keep a => Some a | Offending => None end.

Definition is_offending (v : verdict) : bool :=
  match v with Keep _ => false | Offending => true end.

(** The names of the offending fields, all of them. *)
Definition offending (s : Schema) (c : config) : list string :=
  (map_to_list (filter (λ kv, is_offending kv.2 = true) (verdicts s c))).*1.

(** Python exceptions raised by the modelled code.  The three
    [AttributeError]s of [RegistryLoader] differ by their message; the spec
    calls them NotFoundError ("Couldn't find", "does not exist") and
    ConflictError ("already created"). *)
Inductive exc :=
| AttributeError_not_in_registry (name : string)
| AttributeError_already_created (id : Z)
| AttributeError_does_not_exist (id : Z)
| AttributeError_no_attribute (attr : string)
| KeyError (key : string)
| NameError
| TypeError
| Invalid (fields : list string).

Global Instance exc_eq_dec : EqDecision exc.
Proof. solve_decision. Defined.

Inductive result (A : Type) :=
| Ok (a : A)
| Raise (e : exc).
Arguments Ok {A} a.
Arguments Raise {A} e.

Global Instance result_bind : MBind result :=
  λ A B f m, match m with Ok a => f a | Raise e => Raise e end.

(** Modelled from the spec: calling a schema on a configuration mapping.
    Either the normalized mapping (declared defaults filled in for absent
    fields, declared types checked) or a ValidationError that lists every
    offending field. *)
Definition validate (s : Schema) (c : config) : result config :=
  match offending s c with
  | [] => Ok (omap kept (verdicts s c))
  | bad => Raise (Invalid bad)
  end.

(** Class ids and dict locations: the identity of a Python object. *)
Abbreviation cid := nat.
Abbreviation loc := nat.

(** What a class attribute or an extra constructor argument can hold: an
    atom, a schema, or a reference to a dict object of the store. *)
Inductive pyval :=
| VAtom (a : atom)
| VSchema (s : Schema)
| VDict (l : loc).

Global Instance pyval_eq_dec : EqDecision pyval.
Proof. solve_decision. Defined.

(** ** Strings: [str.split] and the registration name *)

(** [s.split(sep)] for a one-character separator: never an empty list. *)
Fixpoint split (sep : ascii) (s : string) : list string :=
  match s with
  | EmptyString => [EmptyString]
  | String a s' =>
      if decide (a = sep) then EmptyString :: split sep s'
      else match split sep s' with
           | w :: ws => String a w :: ws
           | [] => [String a EmptyString]
           end
  end.

(** [module.split('.')[-1]] *)
Definition registration_name (module : string) : string :=
  default EmptyString (last (split "."%char module)).

(** ** Type objects *)

Record pyclass := PyClass {
  cls_name : string;                (* __name__ *)
  cls_module : string;              (* __module__ *)
  cls_base : option cid;            (* __base__ *)
  cls_mro : list cid;               (* __mro__, the class itself first *)
  cls_type : cid;                   (* type(cls), the metaclass *)
  cls_dict : gmap string pyval      (* attributes bound on this very class *)
}.

Record pystate := PyState {
  classes : gmap cid pyclass;
  dicts : gmap loc (gmap string cid)
}.

Definition mro (st : pystate) (c : cid) : list cid :=
  match classes st !! c with
  | Some k => cls_mro k
  | None => []
  end.

Definition own_attr (st : pystate) (c : cid) (attr : string) : option pyval :=
  k ← classes st !! c; cls_dict k !! attr.

(** The first binding of [attr] along a list of classes. *)
Fixpoint lookup_along (st : pystate) (cs : list cid) (attr : string) : option pyval :=
  match cs with
  | [] => None
  | c :: cs' =>
      match own_attr st c attr with
      | Some v => Some v
      | None => lookup_along st cs' attr
      end
  end.

(** [getattr(cls, attr)]: [None] here stands for [AttributeError]. *)
Definition getattr (st : pystate) (c : cid) (attr : string) : option pyval :=
  lookup_along st (mro st c) attr.

(** [getattr(super(cls, cls), attr, None)]: the lookup starts after [cls] in
    [cls.__mro__]; a missing attribute gives Python's [None]. *)
Definition getattr_super (st : pystate) (c : cid) (attr : string) : pyval :=
  default (VAtom ANone) (lookup_along st (tail (mro st c)) attr).

Definition hasattr (st : pystate) (c : cid) (attr : string) : bool :=
  bool_decide (is_Some (getattr st c attr)).

(** Python's [==] on atoms: [True == 1] and [False == 0]. *)
Definition atom_eqb (a b : atom) : bool :=
  match a, b with
  | ANone, ANone => true
  | ABool x, ABool y => bool_decide (x = y)
  | ABool x, AInt y | AInt y, ABool x => bool_decide (Z.b2z x = y)
  | AInt x, AInt y => bool_decide (x = y)
  | AStr x, AStr y => bool_decide (x = y)
  | _, _ => false
  end.

(** Python's [!=].  Two schemas are compared by their field sets
    ([Schema.__eq__] looks at [.schema] only), two dicts by their contents,
    values of different kinds differ. *)
Definition py_ne (st : pystate) (a b : pyval) : bool :=
  match a, b with
  | VAtom x, VAtom y => negb (atom_eqb x y)
  | VSchema x, VSchema y => negb (bool_decide (schema_fields x = schema_fields y))
  | VDict x, VDict y => negb (bool_decide (dicts st !! x = dicts st !! y))
  | _, _ => true
  end.

(** ** Reflection helpers *)

Definition hasattr_explicit (st : pystate) (c : cid) (attr : string) : bool :=
  match getattr st c attr with
  | Some v => py_ne st v (getattr_super st c attr)
  | None => false
  end.

(** [getattr_explicit(cls, attr, *default)] *)
Definition getattr_explicit (st : pystate) (c : cid) (attr : string)
    (dflt : list pyval) : result pyval :=
  if bool_decide (1 < length dflt)%nat then Raise TypeError
  else if hasattr_explicit st c attr then
    match getattr st c attr with
    | Some v => Ok v
    | None =>
        (* getattr(cls, attr, default) falls back on the tuple [default];
           not reached, [hasattr_explicit] found the attribute *)
        Raise (AttributeError_no_attribute attr)
    end
  else
    match dflt with
    | d :: _ => Ok d
    | [] => Raise (AttributeError_no_attribute attr)
    end.

(** ** The interpreter's initial classes *)

Definition object_cls : cid := 0%nat.
Definition type_cls : cid := 1%nat.
Definition ABCMeta : cid := 2%nat.
Definition ABC : cid := 3%nat.
Definition BaseRegistry : cid := 4%nat.

(** [object], [type], [abc.ABCMeta], [abc.ABC] and the class statement
    [class BaseRegistry(ABC)] with its one data attribute
    [_schema_attr = 'CONFIG_SCHEMA']. *)
Definition initial_state : pystate :=
  PyState
    (<[BaseRegistry := PyClass "BaseRegistry" "ledfxcontroller.utils" (Some ABC)
                         [BaseRegistry; ABC; object_cls] ABCMeta
                         {[ "_schema_attr" := VAtom (AStr "CONFIG_SCHEMA") ]} ]>
     (<[ABC := PyClass "ABC" "abc" (Some object_cls) [ABC; object_cls] ABCMeta ∅ ]>
     (<[ABCMeta := PyClass "ABCMeta" "abc" (Some type_cls)
                         [ABCMeta; type_cls; object_cls] type_cls ∅ ]>
     (<[type_cls := PyClass "type" "builtins" (Some object_cls)
                         [type_cls; object_cls] type_cls ∅ ]>
     (<[object_cls := PyClass "object" "builtins" None [object_cls] type_cls ∅ ]> ∅)))))
    ∅.

(** ** BaseRegistry *)

Definition module_of (st : pystate) (c : cid) : string :=
  default EmptyString (cls_module <$> classes st !! c).

(** [type(cls)] *)
Definition type_of (st : pystate) (c : cid) : cid :=
  default type_cls (cls_type <$> classes st !! c).

(** [cls.attr = v] *)
Definition setattr (st : pystate) (c : cid) (attr : string) (v : pyval) : pystate :=
  PyState
    (alter (λ k, PyClass (cls_name k) (cls_module k) (cls_base k) (cls_mro k)
                         (cls_type k) (<[attr := v]> (cls_dict k))) c (classes st))
    (dicts st).

(** A new, empty dict object. *)
Definition new_dict (st : pystate) : pystate * loc :=
  let l := fresh (dom (dicts st)) in
  (PyState (classes st) (<[l := ∅]> (dicts st)), l).

(** Reading [cls._registry] as a dict object.  A [_registry] that is bound to
    something else than a dict is outside the registry protocol and reported
    as [TypeError]. *)
Definition registry_loc (st : pystate) (c : cid) : result loc :=
  match getattr st c "_registry" with
  | None => Raise (AttributeError_no_attribute "_registry")
  | Some (VDict l) =>
      if bool_decide (is_Some (dicts st !! l)) then Ok l else Raise TypeError
  | Some _ => Raise TypeError
  end.

Definition dict_at (st : pystate) (l : loc) : gmap string cid :=
  default ∅ (dicts st !! l).

(** [BaseRegistry.__init_subclass__(cls)] *)
Definition __init_subclass__ (st : pystate) (cls : cid) : result pystate :=
  let st1 :=
    if hasattr st cls "_registry" then st
    else let '(st', l) := new_dict st in setattr st' cls "_registry" (VDict l) in
  let name := registration_name (module_of st1 cls) in
  l ← registry_loc st1 cls;
  Ok (PyState (classes st1) (<[l := <[name := cls]> (dict_at st1 l)]> (dicts st1))).

(** The statement [class name(base): body] executed in module [module].
    The new type object takes its metaclass from the base, its [__mro__] is
    itself followed by the base's, and [type.__new__] ends by calling
    [super(cls, cls).__init_subclass__()], which is [BaseRegistry]'s when
    [BaseRegistry] is among the ancestors. *)
Definition define_class (st : pystate) (name module : string) (base : cid)
    (body : gmap string pyval) : result (pystate * cid) :=
  match classes st !! base with
  | None => Raise NameError
  | Some b =>
      let c := fresh (dom (classes st)) in
      let k := PyClass name module (Some base) (c :: cls_mro b) (cls_type b) body in
      let st1 := PyState (<[c := k]> (classes st)) (dicts st) in
      if bool_decide (BaseRegistry ∈ cls_mro b) then
        st2 ← __init_subclass__ st1 c; Ok (st2, c)
      else Ok (st1, c)
  end.

(** [BaseRegistry.no_registration(cls)], the decorator. *)
Definition no_registration (st : pystate) (cls : cid) : result (pystate * cid) :=
  let name := registration_name (module_of st cls) in
  l ← registry_loc st cls;
  match dict_at st l !! name with
  | None => Raise (KeyError name)
  | Some _ =>
      Ok (PyState (classes st) (<[l := delete name (dict_at st l)]> (dicts st)), cls)
  end.

(** [self._schema_attr] *)
Definition _schema_attr (st : pystate) (self : cid) : result string :=
  match getattr st self "_schema_attr" with
  | Some (VAtom (AStr a)) => Ok a
  | Some _ => Raise TypeError
  | None => Raise (AttributeError_no_attribute "_schema_attr")
  end.

(** The loop of [schema]: [cs] is [inspect.getmro(self)[::-1]]. *)
Fixpoint compose (st : pystate) (attr : string) (cs : list cid) (acc : Schema)
  : result Schema :=
  match cs with
  | [] => Ok acc
  | c :: cs' =>
      c_schema ← getattr_explicit st c attr [VAtom ANone];
      match c_schema with
      | VAtom ANone => compose st attr cs' acc
      | VSchema s => compose st attr cs' (extend acc (schema_fields s))
      | _ => Raise (AttributeError_no_attribute "schema")
      end
  end.

(** [BaseRegistry.schema(extended, extra)], a classmethod: [self] is the
    class the method is called on (or the class of the instance). *)
Definition schema (st : pystate) (self : cid) (extended : bool)
    (extra : extra_policy) : result pyval :=
  attr ← _schema_attr st self;
  if negb extended then
    getattr_explicit st (type_of st self) attr [VSchema Schema_empty]
  else
    s ← compose st attr (rev (mro st self)) (MkSchema ∅ extra);
    Ok (VSchema s).

(** [BaseRegistry.registry()] *)
Definition registry (st : pystate) (self : cid) : result (gmap string cid) :=
  l ← registry_loc st self; Ok (dict_at st l).

(** ** RegistryLoader *)

Inductive ctor_arg :=
| ArgConfig (c : config)
| ArgVal (v : pyval).

(** A component instance.  Component classes are opaque to [utils.py]: an
    instance is what its constructor was called with. *)
Record instance := Instance {
  inst_class : cid;
  inst_args : list ctor_arg
}.

Global Instance ctor_arg_eq_dec : EqDecision ctor_arg.
Proof. solve_decision. Defined.
Global Instance instance_eq_dec : EqDecision instance.
Proof. solve_decision. Defined.

Record RegistryLoader := Loader {
  _package : string;
  _cls : cid;
  _objects : gmap Z instance;
  _object_id : Z
}.

(** [RegistryLoader.__init__]; the import of the package's modules
    ([import_registry]) belongs to the discovery collaborator. *)
Definition RegistryLoader_init (cls : cid) (package : string) : RegistryLoader :=
  Loader package cls ∅ 1.

(** [classes()] *)
Definition loader_classes (st : pystate) (self : RegistryLoader)
  : result (gmap string cid) :=
  registry st (_cls self).

(** [values()] *)
Definition values (self : RegistryLoader) : list instance :=
  (map_to_list (_objects self)).*2.

Definition set_objects (self : RegistryLoader) (o : gmap Z instance) : RegistryLoader :=
  Loader (_package self) (_cls self) o (_object_id self).

Definition set_object_id (self : RegistryLoader) (n : Z) : RegistryLoader :=
  Loader (_package self) (_cls self) (_objects self) n.

(** [create(name, config, id, *args)].  [config = None] is Python's [None];
    a caller that leaves [config] out passes the source's default, the empty
    mapping.  The loader that is returned is the loader as the call leaves
    it, also when the call raises. *)
Definition create (st : pystate) (self : RegistryLoader) (name : string)
    (config : option config) (id : option Z) (args : list pyval)
  : RegistryLoader * result instance :=
  match registry st (_cls self) with
  | Raise e => (self, Raise e)
  | Ok reg =>
      if bool_decide (reg !! name = None) then
        (self, Raise (AttributeError_not_in_registry name))
      else
        let '(id, self) :=
          match id with
          | None => (_object_id self, set_object_id self (_object_id self + 1))
          | Some i => (i, self)
          end in
        if bool_decide (is_Some (_objects self !! id)) then
          (self, Raise (AttributeError_already_created id))
        else
          match reg !! name with
          | None => (self, Raise (AttributeError_no_attribute "schema"))
          | Some k =>
              match config with
              | Some cfg =>
                  match schema st k true ALLOW_EXTRA with
                  | Ok (VSchema s) =>
                      match validate s cfg with
                      | Ok cfg' =>
                          let obj := Instance k (ArgConfig cfg' :: (ArgVal <$> args)) in
                          (set_objects self (<[id := obj]> (_objects self)), Ok obj)
                      | Raise e => (self, Raise e)
                      end
                  | Ok _ => (self, Raise TypeError)
                  | Raise e => (self, Raise e)
                  end
              | None =>
                  let obj := Instance k (ArgVal <$> args) in
                  (set_objects self (<[id := obj]> (_objects self)), Ok obj)
              end
          end
  end.

(** [destroy(id)] *)
Definition destroy (self : RegistryLoader) (id : Z) : RegistryLoader * result unit :=
  if bool_decide (_objects self !! id = None) then
    (self, Raise (AttributeError_does_not_exist id))
  else (set_objects self (delete id (_objects self)), Ok ()).

(** ** Sequences of loader calls *)

(** One call on a loader, made while the interpreter is in state [st]. *)
Inductive op :=
| Create (st : pystate) (name : string) (config : option config)
         (id : option Z) (args : list pyval)
| Destroy (id : Z).

Definition step (self : RegistryLoader) (o : op) : RegistryLoader :=
  match o with
  | Create st name config id args => (create st self name config id args).1
  | Destroy id => (destroy self id).1
  end.

(** The identifiers that a call newly puts into the mapping. *)
Definition new_ids (before after : RegistryLoader) : list Z :=
  elements (dom (_objects after) ∖ dom (_objects before)).

(** The identifiers under which the calls that omit [id] stored their
    instances, in the order of the calls. *)
Fixpoint auto_ids (self : RegistryLoader) (ops : list op) : list Z :=
  match ops with
  | [] => []
  | o :: ops' =>
      let self' := step self o in
      match o with
      | Create _ _ _ None _ => new_ids self self'
      | _ => []
      end ++ auto_ids self' ops'
  end.

(** ** A small category, to run the definitions on

    The classes of the spec's composition example: [Base] declares
    [{a: int, default 1}], [Derived(Base)] declares [{b: str, required}] and
    [Derived2(Base)] declares [{a: int, default 2}] again. *)

Definition Base_schema : Schema :=
  MkSchema {[ "a" := Field TInt false (Some (AInt 1)) ]} PREVENT_EXTRA.
Definition Derived_schema : Schema :=
  MkSchema {[ "b" := Field TStr true None ]} PREVENT_EXTRA.
Definition Derived2_schema : Schema :=
  MkSchema {[ "a" := Field TInt false (Some (AInt 2)) ]} PREVENT_EXTRA.

Definition example_program : result (pystate * (cid * cid * cid)) :=
  '(st, base) ← define_class initial_state "Base" "ledfxcontroller.effects"
                  BaseRegistry {[ "CONFIG_SCHEMA" := VSchema Base_schema ]};
  '(st, derived) ← define_class st "Derived" "ledfxcontroller.effects.derived"
                     base {[ "CONFIG_SCHEMA" := VSchema Derived_schema ]};
  '(st, derived2) ← define_class st "Derived2" "ledfxcontroller.effects.derived2"
                      base {[ "CONFIG_SCHEMA" := VSchema Derived2_schema ]};
  Ok (st, (base, derived, derived2)).

Definition example_state : pystate :=
  match example_program with
  | Ok (st, _) => st
  | Raise _ => initial_state
  end.

Definition Base : cid := 5%nat.
Definition Derived : cid := 6%nat.
Definition Derived2 : cid := 7%nat.

Definition example_loader : RegistryLoader :=
  RegistryLoader_init Base "ledfxcontroller.effects".

(** The loader after [create("derived", {"b": "x"}, 5)]. *)
Definition example_loader_5 : RegistryLoader :=
  (create example_state example_loader "derived" (Some {[ "b" := AStr "x" ]})
          (Some 5) []).1.

(** ** Well-formed class tables

    What [type.__new__] guarantees for classes with one base: the [__mro__]
    of a class is the class followed by the [__mro__] of its base, and it
    names existing classes only. *)
Definition wf_class (st : pystate) (c : cid) (k : pyclass) : Prop :=
  match cls_base k with
  | None => cls_mro k = [c]
  | Some p => ∃ b, classes st !! p = Some b ∧ cls_mro k = c :: cls_mro b
  end ∧
  Forall (λ d, is_Some (classes st !! d)) (cls_mro k).

Definition wf_state (st : pystate) : Prop :=
  ∀ c k, classes st !! c = Some k → wf_class st c k.

(** The class is a subclass of [BaseRegistry] in the sense that counts for
    the hook: defining a class with this base runs [__init_subclass__]. *)
Definition in_registry_hierarchy (st : pystate) (c : cid) : Prop :=
  BaseRegistry ∈ mro st c.

(** ** Schema composition, in the spec's words *)

(** The value that class [c] declares explicitly for [attr]: the value bound
    on this exact type, when it differs from the value visible on its
    immediate parent (Python's [None] when the parent shows none, or when
    there is no parent). *)
Definition declared_here (st : pystate) (attr : string) (c : cid) : option pyval :=
  k ← classes st !! c;
  v ← cls_dict k !! attr;
  let inherited :=
    match cls_base k with
    | Some p => default (VAtom ANone) (getattr st p attr)
    | None => VAtom ANone
    end in
  if py_ne st v inherited then Some v else None.

(** The field set of a declared schema fragment. *)
Definition fragment (st : pystate) (attr : string) (c : cid) : option fieldset :=
  v ← declared_here st attr c;
  match v with
  | VSchema s => Some (schema_fields s)
  | _ => None
  end.

(** The declaration of field [f] along an ancestor chain given leaf first:
    that of the most derived class whose fragment names [f]. *)
Fixpoint most_derived (st : pystate) (attr : string) (chain : list cid) (f : string)
  : option field :=
  match chain with
  | [] => None
  | c :: ancestors =>
      match fragment st attr c ≫= (.!! f) with
      | Some fld => Some fld
      | None => most_derived st attr ancestors f
      end
  end.

(** One round of the loop of [schema], in terms of the declared fragment. *)
Definition merge_fragment (st : pystate) (attr : string) (acc : Schema) (c : cid)
  : Schema :=
  match fragment st attr c with
  | Some fs => extend acc fs
  | None => acc
  end.

(** Every declaration of [attr] along the chain is a schema or [None]. *)
Definition schema_declarations (st : pystate) (attr : string) (chain : list cid) : Prop :=
  ∀ c v, c ∈ chain → own_attr st c attr = Some v →
         v = VAtom ANone ∨ ∃ s, v = VSchema s.

(** ** Further notions used to state properties of the code *)

(** [a in s] for a character [a]. *)
Fixpoint has_char (a : ascii) (s : string) : bool :=
  match s with
  | EmptyString => false
  | String b s' => bool_decide (b = a) || has_char a s'
  end.

(** Running a sequence of calls on a loader. *)
Definition run (self : RegistryLoader) (ops : list op) : RegistryLoader :=
  foldl step self ops.

(** A call that does not pass an id of the caller's choosing. *)
Definition no_explicit_id (o : op) : Prop :=
  match o with
  | Create _ _ _ (Some _) _ => False
  | _ => True
  end.

(** The loader after [create("derived2", None, 1)]: the caller has taken the
    id that the counter holds. *)
Definition example_loader_1 : RegistryLoader :=
  (create example_state example_loader "derived2" None (Some 1) []).1.

(** The ids in the mapping lie between 1 and the counter. *)
Definition ids_below_counter (self : RegistryLoader) : Prop :=
  1 ≤ _object_id self ∧
  ∀ i, is_Some (_objects self !! i) → 1 ≤ i < _object_id self.

(** [example_state] after one more class statement, for a class that binds
    the schema attribute to an integer. *)
Definition broken_state : pystate :=
  match define_class example_state "Broken" "ledfxcontroller.effects.broken" Base
                     {[ "CONFIG_SCHEMA" := VAtom (AInt 5) ]} with
  | Ok (st, _) => st
  | Raise _ => example_state
  end.

Definition Broken : cid := 8%nat.


(** ** Classes with several bases *)

(** Python's linearization of the bases ([type.mro], the C3 merge): the next
    class is the head of the first list that occurs in the tail of no list. *)
Definition c3_candidate (ls : list (list cid)) (h : cid) : bool :=
  forallb (λ l, negb (bool_decide (h ∈ tail l))) ls.

Fixpoint c3_pick (ls all : list (list cid)) : option cid :=
  match ls with
  | [] => None
  | [] :: rest => c3_pick rest all
  | (h :: _) :: rest => if c3_candidate all h then Some h else c3_pick rest all
  end.

Definition c3_remove (h : cid) (l : list cid) : list cid :=
  match l with
  | x :: t => if decide (x = h) then t else l
  | [] => []
  end.

Fixpoint c3_merge (fuel : nat) (ls : list (list cid)) : option (list cid) :=
  if forallb (λ l, bool_decide (l = [])) ls then Some []
  else match fuel with
       | O => None
       | S n =>
           h ← c3_pick ls ls;
           t ← c3_merge n (c3_remove h <$> ls);
           Some (h :: t)
       end.

(** The metaclass of a new class: the one among the bases' metaclasses that
    is a subclass of all of them. *)
Definition winner_metaclass (st : pystate) (metas : list cid) : option cid :=
  List.find (λ m, forallb (λ m', bool_decide (m' ∈ mro st m)) metas) metas.

(** The statement [class name(base1, base2, ...): body] executed in module
    [module],
    for any number of bases (none stands for [object]).  [__mro__] is the
    class followed by the C3 merge of the bases' [__mro__]s and the list of
    bases, [__base__] is the first base (the classes here have no layout of
    their own), and the hook runs as for [define_class].  A missing base is a
    [NameError]; no metaclass or no linearization is a [TypeError]. *)
Definition define_class_bases (st : pystate) (name module : string)
    (bases : list cid) (body : gmap string pyval) : result (pystate * cid) :=
  let bases := match bases with [] => [object_cls] | _ => bases end in
  match mapM (λ b, classes st !! b) bases with
  | None => Raise NameError
  | Some bs =>
      let lists := (cls_mro <$> bs) ++ [bases] in
      match head bases, winner_metaclass st (cls_type <$> bs),
            c3_merge (S (length (concat lists))) lists with
      | Some b0, Some meta, Some linear =>
          let c := fresh (dom (classes st)) in
          let k := PyClass name module (Some b0) (c :: linear) meta body in
          let st1 := PyState (<[c := k]> (classes st)) (dicts st) in
          if bool_decide (BaseRegistry ∈ linear) then
            st2 ← __init_subclass__ st1 c; Ok (st2, c)
          else Ok (st1, c)
      | _, _, _ => Raise TypeError
      end
  end.

(** A diamond: [Effect(BaseRegistry)] declares [{a: int, default 1}],
    [Mixin(Effect)] declares nothing, [TextEffect(Effect)] declares
    [{a: str, required}], and [Combined(Mixin, TextEffect)] declares
    [{a: int, default 1}] again. *)
Definition Text_schema : Schema :=
  MkSchema {[ "a" := Field TStr true None ]} PREVENT_EXTRA.

Definition diamond_program : result (pystate * (cid * cid * cid * cid)) :=
  '(st, effect) ← define_class initial_state "Effect" "ledfxcontroller.effects"
                    BaseRegistry {[ "CONFIG_SCHEMA" := VSchema Base_schema ]};
  '(st, mixin) ← define_class st "Mixin" "ledfxcontroller.effects.mixin"
                   effect ∅;
  '(st, text) ← define_class st "TextEffect" "ledfxcontroller.effects.text"
                  effect {[ "CONFIG_SCHEMA" := VSchema Text_schema ]};
  '(st, combined) ← define_class_bases st "Combined"
                      "ledfxcontroller.effects.combined" [mixin; text]
                      {[ "CONFIG_SCHEMA" := VSchema Base_schema ]};
  Ok (st, (effect, mixin, text, combined)).

Definition diamond_state : pystate :=
  match diamond_program with
  | Ok (st, _) => st
  | Raise _ => initial_state
  end.

Definition Effect : cid := 5%nat.
Definition Mixin : cid := 6%nat.
Definition TextEffect : cid := 7%nat.
Definition Combined : cid := 8%nat.

(** ** Schema composition along the method resolution order *)

(** The value that class [c] declares explicitly for [attr], as the code
    tests it: the value visible on [c], when it differs from the value
    visible past [c] in [c]'s own [__mro__] (Python's [None] when nothing is
    visible there). *)
Definition explicit_in_mro (st : pystate) (attr : string) (c : cid) : option pyval :=
  v ← getattr st c attr;
  if py_ne st v (getattr_super st c attr) then Some v else None.

Definition fragment_in_mro (st : pystate) (attr : string) (c : cid)
  : option fieldset :=
  v ← explicit_in_mro st attr c;
  match v with
  | VSchema s => Some (schema_fields s)
  | _ => None
  end.

Definition merge_in_mro (st : pystate) (attr : string) (acc : Schema) (c : cid)
  : Schema :=
  match fragment_in_mro st attr c with
  | Some fs => extend acc fs
  | None => acc
  end.

(** The declaration of field [f] along a resolution order, leaf first: that
    of the first class whose explicit fragment names [f]. *)
Fixpoint first_in_mro (st : pystate) (attr : string) (chain : list cid) (f : string)
  : option field :=
  match chain with
  | [] => None
  | c :: rest =>
      match fragment_in_mro st attr c ≫= (.!! f) with
      | Some fld => Some fld
      | None => first_in_mro st attr rest f
      end
  end.

(** Every value declared explicitly along the chain is a schema or [None]. *)
Definition schema_values (st : pystate) (attr : string) (chain : list cid) : Prop :=
  ∀ c v, c ∈ chain → explicit_in_mro st attr c = Some v →
         v = VAtom ANone ∨ ∃ s, v = VSchema s.

(** ** Facts about [create] and [destroy] *)

Local Ltac create_done :=
  intros [= <- <-]; cbn; repeat split; auto.

Section loader_facts.
Context (st : pystate) (self : RegistryLoader).

Lemma create_unknown_name reg name config id args :
  registry st (_cls self) = Ok reg →
  reg !! name = None →
  create st self name config id args
  = (self, Raise (AttributeError_not_in_registry name)).
Proof.
  intros Hreg Hname. unfold create. rewrite Hreg.
  rewrite bool_decide_eq_true_2; done.
Qed.

Lemma create_conflict reg name k config i args :
  registry st (_cls self) = Ok reg →
  reg !! name = Some k →
  is_Some (_objects self !! i) →
  create st self name config (Some i) args
  = (self, Raise (AttributeError_already_created i)).
Proof.
  intros Hreg Hname Hlive. unfold create. rewrite Hreg.
  rewrite bool_decide_eq_false_2 by congruence.
  rewrite bool_decide_eq_true_2; done.
Qed.

(** What any call to [create] can do to the loader. *)
Lemma create_cases name config id args self' r :
  create st self name config id args = (self', r) →
  let i := default (_object_id self) id in
  let n := match id with None => _object_id self + 1 | Some _ => _object_id self end in
  _package self' = _package self ∧ _cls self' = _cls self ∧
  match r with
  | Ok obj =>
      _objects self !! i = None ∧
      _objects self' = <[i := obj]> (_objects self) ∧
      _object_id self' = n
  | Raise e =>
      _objects self' = _objects self ∧
      (_object_id self' = _object_id self ∨ (id = None ∧ _object_id self' = n))
  end.
Proof.
  unfold create. destruct (registry st (_cls self)) as [reg|e0].
  2:{ create_done. }
  case_bool_decide as Hname; [create_done|].
  destruct id as [i|]; simpl;
    (case_bool_decide as Hlive; [create_done|]);
    apply eq_None_not_Some in Hlive; simpl in Hlive;
    (destruct (reg !! name) as [k|]; [|create_done]);
    (destruct config as [cfg|]; [|create_done]);
    (destruct (schema st k true ALLOW_EXTRA) as [[a|s|l]|e1]; try create_done);
    destruct (validate s cfg) as [cfg'|e2]; create_done.
Qed.

(** A call that passes the name check and finds its identifier free. *)
Lemma create_reaches_constructor reg name k config id args :
  registry st (_cls self) = Ok reg →
  reg !! name = Some k →
  _objects self !! default (_object_id self) id = None →
  (create st self name config id args).2
  = match config with
    | None => Ok (Instance k (ArgVal <$> args))
    | Some cfg =>
        match schema st k true ALLOW_EXTRA with
        | Ok (VSchema s) =>
            match validate s cfg with
            | Ok cfg' => Ok (Instance k (ArgConfig cfg' :: (ArgVal <$> args)))
            | Raise e => Raise e
            end
        | Ok _ => Raise TypeError
        | Raise e => Raise e
        end
    end.
Proof.
  intros Hreg Hname Hfree. unfold create. rewrite Hreg, Hname.
  rewrite bool_decide_eq_false_2 by done.
  destruct id as [i|]; simpl in *; rewrite Hfree;
    (rewrite bool_decide_eq_false_2 by (intros [? ?]; done));
    destruct config as [cfg|]; try done;
    destruct (schema st k true ALLOW_EXTRA) as [[a|s|l]|e1]; try done;
    destruct (validate s cfg); done.
Qed.

Lemma destroy_missing i :
  _objects self !! i = None →
  destroy self i = (self, Raise (AttributeError_does_not_exist i)).
Proof. intros H. unfold destroy. by rewrite bool_decide_eq_true_2. Qed.

Lemma destroy_live i obj :
  _objects self !! i = Some obj →
  destroy self i = (set_objects self (delete i (_objects self)), Ok ()).
Proof.
  intros H. unfold destroy. rewrite bool_decide_eq_false_2; [done|congruence].
Qed.
End loader_facts.

Lemma registry_raises st c e :
  registry st c = Raise e →
  e = AttributeError_no_attribute "_registry" ∨ e = TypeError.
Proof.
  unfold registry, registry_loc.
  destruct (getattr st c "_registry") as [[a|s|l]|]; simpl;
    try case_bool_decide; simpl; intros [= <-]; auto.
Qed.

Lemma getattr_explicit_raises st c attr dflt e :
  getattr_explicit st c attr dflt = Raise e →
  e = AttributeError_no_attribute attr ∨ e = TypeError.
Proof.
  unfold getattr_explicit. case_bool_decide; [intros [= <-]; auto|].
  destruct (hasattr_explicit st c attr).
  - destruct (getattr st c attr); intros [= <-]; auto.
  - destruct dflt; intros [= <-]; auto.
Qed.

Lemma compose_raises st attr cs acc e :
  compose st attr cs acc = Raise e →
  (∃ a, e = AttributeError_no_attribute a) ∨ e = TypeError.
Proof.
  revert acc. induction cs as [|c cs IH]; intros acc; simpl; [done|].
  destruct (getattr_explicit st c attr [VAtom ANone]) as [v|e0] eqn:Hg; simpl.
  - destruct v as [[| | |]|s|l]; try (intros [= <-]; by eauto); apply IH.
  - intros [= <-]. apply getattr_explicit_raises in Hg as [->| ->]; eauto.
Qed.

Lemma schema_raises st c ext extra e :
  schema st c ext extra = Raise e →
  (∃ a, e = AttributeError_no_attribute a) ∨ e = TypeError.
Proof.
  unfold schema, _schema_attr.
  destruct (getattr st c "_schema_attr") as [[[| | |a]|s|l]|]; simpl;
    try (intros [= <-]; by eauto).
  destruct ext; simpl.
  - destruct (compose _ _ _ _) as [s|e0] eqn:Hc; simpl; [done|].
    intros [= <-]. by eapply compose_raises.
  - intros Hg. apply getattr_explicit_raises in Hg as [->| ->]; eauto.
Qed.

Lemma validate_raises s c e :
  validate s c = Raise e → ∃ fs, e = Invalid fs.
Proof.
  unfold validate. destruct (offending s c); [done|]. intros [= <-]. eauto.
Qed.

(** A call that raises leaves the loader as it was, or has taken an auto id
    and raised after the name check. *)
Lemma create_raise_cases st self name config id args self' e :
  create st self name config id args = (self', Raise e) →
  (self' = self ∧
   (id = None → e ≠ AttributeError_already_created (_object_id self) ∧
                ∀ fs, e ≠ Invalid fs))
  ∨ (id = None ∧ self' = set_object_id self (_object_id self + 1) ∧
     e ≠ AttributeError_not_in_registry name).
Proof.
  unfold create. destruct (registry st (_cls self)) as [reg|e0] eqn:Hreg.
  2:{ intros [= <- <-]. left. split; [done|]. intros _.
      apply registry_raises in Hreg as [->| ->]; done. }
  case_bool_decide as Hname.
  { intros [= <- <-]. left. done. }
  destruct id as [i|]; simpl.
  - intros H. left. split; [|done].
    case_bool_decide; [by injection H|].
    destruct (reg !! name) as [k|]; [|by injection H].
    destruct config as [cfg|]; [|done].
    destruct (schema st k true ALLOW_EXTRA) as [[a|s|l]|e1]; try by injection H.
    destruct (validate s cfg); [done|by injection H].
  - intros H. right. split; [done|].
    case_bool_decide; [by injection H as <- <-|].
    destruct (reg !! name) as [k|]; [|by injection H as <- <-].
    destruct config as [cfg|]; [|done].
    destruct (schema st k true ALLOW_EXTRA) as [[a|s|l]|e1] eqn:Hs;
      try by injection H as <- <-.
    + destruct (validate s cfg) eqn:Hv; [done|]. injection H as <- <-.
      apply validate_raises in Hv as [fs ->]. done.
    + injection H as <- <-.
      apply schema_raises in Hs as [[a ->]| ->]; done.
Qed.

(** ** RegistryLoader: failing calls *)

(** C1 (as amended).  A call to [create] that raises stores no instance: the
    id-to-instance mapping is exactly as before.  When the name is unknown, or
    when an id was passed, the whole loader is as before.  When the id was
    omitted and the call raises on an id conflict or on validation, the
    next-auto-id counter has advanced by one: the auto id is consumed. *)
Theorem create_failure_keeps_objects st self name config id args self' e :
  create st self name config id args = (self', Raise e) →
  _objects self' = _objects self ∧
  (e = AttributeError_not_in_registry name → self' = self) ∧
  (is_Some id → self' = self) ∧
  (id = None →
   e = AttributeError_already_created (_object_id self) ∨ (∃ fs, e = Invalid fs) →
   _object_id self' = _object_id self + 1).
Proof.
  intros H. apply create_raise_cases in H as [[-> Hsame]|(-> & -> & Hne)].
  - repeat split; try done.
    intros Hid [->|[fs ->]]; destruct (Hsame Hid) as [H1 H2]; [done|].
    by destruct (H2 fs).
  - repeat split; try done; intros [? ?]; done.
Qed.

Lemma create_failure_keeps_objects_witness :
  _objects (create example_state example_loader "derived" (Some ∅) None []).1
  = _objects example_loader.
Proof.
  destruct (create example_state example_loader "derived" (Some ∅) None [])
    as [self' r] eqn:H.
  assert (r = Raise (Invalid ["b"])) as ->.
  { change r with (self', r).2. rewrite <- H. vm_compute. reflexivity. }
  exact (proj1 (create_failure_keeps_objects _ _ _ _ _ _ _ _ H)).
Defined.

(** C1 (as stated) fails: on a loader whose next auto id is 1, a [create]
    without id whose configuration lacks the required field raises the
    validation error and leaves the counter at 2; the next successful
    [create] without id stores under 2, where it would have stored under 1
    had the failing call not happened. *)
Lemma create_failure_consumes_auto_id :
  let failed := create example_state example_loader "derived" (Some ∅) None [] in
  let good := Some ({[ "b" := AStr "x" ]} : config) in
  failed.2 = Raise (Invalid ["b"]) ∧
  failed.1 ≠ example_loader ∧
  _object_id example_loader = 1 ∧
  _object_id failed.1 = 2 ∧
  new_ids failed.1 (create example_state failed.1 "derived" good None []).1 = [2] ∧
  new_ids example_loader
          (create example_state example_loader "derived" good None []).1 = [1].
Proof.
  cbv zeta. split_and!; try (vm_compute; reflexivity).
  intros H. apply (f_equal _object_id) in H. vm_compute in H. discriminate H.
Qed.

(** C8 (as amended).  On a loader that holds a live instance under [i],
    [create(name, config, id=i)] raises "already created" (ConflictError)
    when [name] is in the registry, and "couldn't find" (NotFoundError) when
    it is not: the name is checked first.  Either way the loader is returned
    as it was, so the instance stored under [i] is still there, unchanged. *)
Theorem create_on_live_id st self reg name config i args obj :
  registry st (_cls self) = Ok reg →
  _objects self !! i = Some obj →
  let r := create st self name config (Some i) args in
  r.1 = self ∧ _objects r.1 !! i = Some obj ∧
  (is_Some (reg !! name) → r.2 = Raise (AttributeError_already_created i)) ∧
  (reg !! name = None → r.2 = Raise (AttributeError_not_in_registry name)).
Proof.
  intros Hreg Hlive r. subst r.
  destruct (reg !! name) as [k|] eqn:Hname.
  - rewrite (create_conflict st self reg name k) by eauto. simpl.
    split_and!; try done.
  - rewrite (create_unknown_name st self reg name) by eauto. simpl.
    split_and!; try done; intros [? ?]; done.
Qed.

Lemma create_on_live_id_witness :
  (create example_state example_loader_5 "derived" (Some ∅) (Some 5) []).2
  = Raise (AttributeError_already_created 5).
Proof.
  assert (∃ reg, registry example_state (_cls example_loader_5) = Ok reg
                 ∧ is_Some (reg !! "derived")) as (reg & Hreg & Hname).
  { eexists. split; [vm_compute; reflexivity|]. vm_compute. eauto. }
  assert (∃ obj, _objects example_loader_5 !! 5 = Some obj) as [obj Hobj].
  { eexists. vm_compute. reflexivity. }
  exact (proj1 (proj2 (proj2
    (create_on_live_id example_state example_loader_5 reg "derived" (Some ∅) 5 []
       obj Hreg Hobj))) Hname).
Defined.

(** C8 (as stated) fails: the loader holds an instance under 5, and
    [create("does_not_exist", {}, id=5)] raises the registry's "couldn't
    find" error, not the "already created" one. *)
Lemma unknown_name_wins_over_live_id :
  is_Some (_objects example_loader_5 !! 5) ∧
  (create example_state example_loader_5 "does_not_exist" (Some ∅) (Some 5) []).2
  = Raise (AttributeError_not_in_registry "does_not_exist") ∧
  (create example_state example_loader_5 "does_not_exist" (Some ∅) (Some 5) []).2
  ≠ Raise (AttributeError_already_created 5).
Proof.
  split_and!.
  - vm_compute. eauto.
  - vm_compute. reflexivity.
  - vm_compute. discriminate.
Qed.

(** C9.  [create] with a name that is not in the registry raises "couldn't
    find" (NotFoundError) and returns the loader as it was; [destroy] of an id
    with no live instance raises "does not exist" (NotFoundError) and returns
    the loader as it was; [destroy] of a live id removes that entry and leaves
    every other entry and the counter alone. *)
Theorem unknown_name_and_destroy st self reg name config id args i :
  (registry st (_cls self) = Ok reg → reg !! name = None →
   create st self name config id args
   = (self, Raise (AttributeError_not_in_registry name))) ∧
  (_objects self !! i = None →
   destroy self i = (self, Raise (AttributeError_does_not_exist i))) ∧
  (is_Some (_objects self !! i) →
   let r := destroy self i in
   r.2 = Ok () ∧
   _objects r.1 = delete i (_objects self) ∧
   _objects r.1 !! i = None ∧
   (∀ j, j ≠ i → _objects r.1 !! j = _objects self !! j) ∧
   _object_id r.1 = _object_id self ∧ _cls r.1 = _cls self ∧
   _package r.1 = _package self).
Proof.
  split_and!.
  - apply create_unknown_name.
  - apply destroy_missing.
  - intros [obj Hobj]. cbv zeta. rewrite (destroy_live self i obj Hobj). simpl.
    split_and!; try done.
    + apply lookup_delete_eq.
    + intros j Hj. by apply lookup_delete_ne.
Qed.

Lemma unknown_name_and_destroy_witness :
  create example_state example_loader_5 "does_not_exist" (Some ∅) None []
  = (example_loader_5, Raise (AttributeError_not_in_registry "does_not_exist")) ∧
  destroy example_loader_5 4
  = (example_loader_5, Raise (AttributeError_does_not_exist 4)) ∧
  _objects (destroy example_loader_5 5).1 = delete 5 (_objects example_loader_5).
Proof.
  assert (∃ reg, registry example_state (_cls example_loader_5) = Ok reg
                 ∧ reg !! "does_not_exist" = None) as (reg & Hreg & Hname).
  { eexists. split; vm_compute; reflexivity. }
  pose proof (unknown_name_and_destroy example_state example_loader_5 reg
                "does_not_exist" (Some ∅) None [] 4) as (H1 & H2 & _).
  pose proof (unknown_name_and_destroy example_state example_loader_5 reg
                "does_not_exist" (Some ∅) None [] 5) as (_ & _ & H3).
  split_and!.
  - exact (H1 Hreg Hname).
  - apply H2. vm_compute. reflexivity.
  - apply H3. vm_compute. eauto.
Defined.

(** ** RegistryLoader: configuration and construction *)

(** Validating the empty mapping fills in every declared default and nothing
    else. *)
Lemma validate_empty_defaults s cfg' f :
  validate s ∅ = Ok cfg' →
  cfg' !! f = (schema_fields s !! f) ≫= f_default.
Proof.
  unfold validate. destruct (offending s ∅); [|done]. intros [= <-].
  unfold verdicts. rewrite lookup_omap, lookup_merge, lookup_empty.
  destruct (schema_fields s !! f) as [fld|]; simpl; [|done].
  destruct (f_default fld); simpl; [done|]. by destruct (f_required fld).
Qed.

(** C6.  For a call [create(name, config, id, *args)] whose name is registered
    to a type [k] and whose resolved id is free: with [config = None] the
    schema is not consulted and the constructor of [k] gets the extra
    arguments only; with a mapping (the empty one included) the mapping goes
    through the composed schema of [k], a validation error is raised as it
    is, and otherwise the constructor gets the normalized mapping followed by
    the extra arguments; the empty mapping is normalized to the declared
    defaults. *)
Theorem create_config_dispatch st self reg name k id args :
  registry st (_cls self) = Ok reg →
  reg !! name = Some k →
  _objects self !! default (_object_id self) id = None →
  (create st self name None id args).2 = Ok (Instance k (ArgVal <$> args)) ∧
  (∀ cfg s,
     schema st k true ALLOW_EXTRA = Ok (VSchema s) →
     (create st self name (Some cfg) id args).2
     = match validate s cfg with
       | Ok cfg' => Ok (Instance k (ArgConfig cfg' :: (ArgVal <$> args)))
       | Raise e => Raise e
       end) ∧
  (∀ s cfg',
     schema st k true ALLOW_EXTRA = Ok (VSchema s) →
     validate s ∅ = Ok cfg' →
     (create st self name (Some ∅) id args).2
     = Ok (Instance k (ArgConfig cfg' :: (ArgVal <$> args))) ∧
     ∀ f, cfg' !! f = (schema_fields s !! f) ≫= f_default).
Proof.
  intros Hreg Hname Hfree. split_and!.
  - by rewrite (create_reaches_constructor st self reg name k).
  - intros cfg s Hs.
    rewrite (create_reaches_constructor st self reg name k) by done.
    by rewrite Hs.
  - intros s cfg' Hs Hv. split.
    + rewrite (create_reaches_constructor st self reg name k) by done.
      by rewrite Hs, Hv.
    + intros f. by apply validate_empty_defaults.
Qed.

Lemma create_config_dispatch_witness :
  (create example_state example_loader "derived2" None None
          [VAtom (AStr "ledfx")]).2
  = Ok (Instance Derived2 [ArgVal (VAtom (AStr "ledfx"))]) ∧
  (create example_state example_loader "derived2" (Some ∅) None
          [VAtom (AStr "ledfx")]).2
  = Ok (Instance Derived2 [ArgConfig {[ "a" := AInt 2 ]};
                           ArgVal (VAtom (AStr "ledfx"))]).
Proof.
  assert (∃ reg, registry example_state (_cls example_loader) = Ok reg
                 ∧ reg !! "derived2" = Some Derived2) as (reg & Hreg & Hname).
  { eexists. split; vm_compute; reflexivity. }
  assert (_objects example_loader !! default (_object_id example_loader) None
          = None) as Hfree by (vm_compute; reflexivity).
  destruct (create_config_dispatch example_state example_loader reg "derived2"
              Derived2 None [VAtom (AStr "ledfx")] Hreg Hname Hfree)
    as (H1 & _ & H3).
  split; [exact H1|].
  refine (proj1 (H3 (MkSchema (schema_fields Derived2_schema ∪
                               (schema_fields Base_schema ∪ ∅)) ALLOW_EXTRA)
                    {[ "a" := AInt 2 ]} _ _)); vm_compute; reflexivity.
Defined.

(** ** RegistryLoader: auto-assigned identifiers *)

Lemma new_ids_insert self self' i obj :
  _objects self !! i = None →
  _objects self' = <[i := obj]> (_objects self) →
  new_ids self self' = [i].
Proof.
  intros Hfree H. unfold new_ids. rewrite H, dom_insert_L.
  apply not_elem_of_dom in Hfree.
  assert (({[i]} ∪ dom (_objects self)) ∖ dom (_objects self) = {[i]}) as ->.
  { apply set_eq. intros j. rewrite elem_of_difference, elem_of_union,
      elem_of_singleton. split; [tauto|]. intros ->. auto. }
  apply elements_singleton.
Qed.

Lemma new_ids_same self self' :
  _objects self' = _objects self → new_ids self self' = [].
Proof.
  intros H. unfold new_ids. rewrite H, difference_diag_L. apply elements_empty.
Qed.

Lemma step_counter_mono self o : _object_id self ≤ _object_id (step self o).
Proof.
  destruct o as [st name config id args|i]; simpl.
  - destruct (create st self name config id args) as [self' r] eqn:H.
    apply create_cases in H as (_ & _ & H). simpl.
    destruct r as [obj|e].
    + destruct H as (_ & _ & ->). destruct id; lia.
    + destruct H as (_ & [->|[-> ->]]); lia.
  - unfold destroy. case_bool_decide; simpl; lia.
Qed.

(** From any loader on: the logged ids are not below the loader's counter and
    go strictly up. *)
Lemma auto_ids_from self ops :
  Forall (λ i, _object_id self ≤ i) (auto_ids self ops) ∧
  StronglySorted Z.lt (auto_ids self ops).
Proof.
  revert self. induction ops as [|o ops IH]; intros self; simpl.
  { split; constructor. }
  destruct (IH (step self o)) as [Hlow Hsorted].
  assert (Forall (λ i, _object_id self ≤ i) (auto_ids (step self o) ops)) as Hlow'.
  { pose proof (step_counter_mono self o).
    eapply Forall_impl; [exact Hlow|]. simpl. intros; lia. }
  destruct o as [st name config [i|] args|i]; simpl in *; try done.
  destruct (create st self name config None args) as [self' r] eqn:H.
  simpl in *. apply create_cases in H as (_ & _ & H). simpl in H.
  destruct r as [obj|e].
  - destruct H as (Hfree & Hobjs & Hnext).
    rewrite (new_ids_insert self self' _ obj Hfree Hobjs). simpl.
    rewrite Hnext in Hlow. split.
    + constructor; [lia|done].
    + constructor; [done|]. eapply Forall_impl; [exact Hlow|]. simpl. intros; lia.
  - destruct H as [Hobjs _]. rewrite (new_ids_same self self' Hobjs). done.
Qed.

Lemma run_cls self ops : _cls (run self ops) = _cls self.
Proof.
  unfold run. revert self. induction ops as [|o ops IH]; intros self; simpl; [done|].
  rewrite IH. destruct o as [st name config id args|i]; simpl.
  - destruct (create st self name config id args) as [self' r] eqn:H.
    by apply create_cases in H as (_ & ? & _).
  - unfold destroy. by case_bool_decide.
Qed.

Lemma auto_ids_app self ops1 ops2 :
  auto_ids self (ops1 ++ ops2)
  = auto_ids self ops1 ++ auto_ids (run self ops1) ops2.
Proof.
  revert self. induction ops1 as [|o ops1 IH]; intros self; simpl; [done|].
  by rewrite IH, (assoc_L (++)).
Qed.

(** A call without id that passes the name check takes the counter's value
    and moves the counter on by one, whatever happens next. *)
Lemma create_auto_advances st self reg name k config args :
  registry st (_cls self) = Ok reg →
  reg !! name = Some k →
  _object_id (create st self name config None args).1 = _object_id self + 1.
Proof.
  intros Hreg Hname. unfold create. rewrite Hreg, Hname.
  rewrite bool_decide_eq_false_2 by done.
  cbn [fst snd]. case_bool_decide; [done|].
  destruct config as [cfg|]; [|done].
  destruct (schema st k true ALLOW_EXTRA) as [[a|s|l]|e1]; try done.
  by destruct (validate s cfg).
Qed.

(** With no configuration to validate and the counter's value free, the call
    returns. *)
Lemma create_auto_returns st self reg name k args :
  registry st (_cls self) = Ok reg →
  reg !! name = Some k →
  _objects self !! _object_id self = None →
  create st self name None None args
  = (Loader (_package self) (_cls self)
            (<[_object_id self := Instance k (ArgVal <$> args)]> (_objects self))
            (_object_id self + 1),
     Ok (Instance k (ArgVal <$> args))).
Proof.
  intros Hreg Hname Hfree. unfold create. rewrite Hreg, Hname.
  rewrite bool_decide_eq_false_2 by done. cbn [fst snd].
  rewrite bool_decide_eq_false_2; [reflexivity|].
  simpl. rewrite Hfree. by intros [? ?].
Qed.

(** C5.  Over any sequence of [create] and [destroy] calls on a new loader,
    the ids under which the calls that omit [id] store their instances are at
    least 1 and strictly increasing, so none occurs twice, whatever was
    destroyed in between; the counter starts at 1 and a first [create]
    without id stores under 1.  After any such sequence, a [create] without
    id whose name is registered takes the counter's value as its id and
    moves the counter on by one; when it returns, its instance is stored
    under that value; and it does return when no configuration is to be
    validated and the value is free, which adds that value to the ids
    assigned so far. *)
Theorem auto_ids_start_at_1_and_increase cls package ops :
  let self := RegistryLoader_init cls package in
  let self_n := run self ops in
  _object_id self = 1 ∧
  (∀ st name config args self' obj,
     create st self name config None args = (self', Ok obj) →
     new_ids self self' = [1] ∧ _objects self' !! 1 = Some obj) ∧
  Forall (λ i, 1 ≤ i) (auto_ids self ops) ∧
  StronglySorted Z.lt (auto_ids self ops) ∧
  NoDup (auto_ids self ops) ∧
  (∀ st reg name k config args,
     registry st cls = Ok reg →
     reg !! name = Some k →
     let r := create st self_n name config None args in
     _object_id r.1 = _object_id self_n + 1 ∧
     ∀ obj, r.2 = Ok obj →
            _objects r.1 = <[_object_id self_n := obj]> (_objects self_n) ∧
            new_ids self_n r.1 = [_object_id self_n]) ∧
  (∀ st reg name k args,
     registry st cls = Ok reg →
     reg !! name = Some k →
     _objects self_n !! _object_id self_n = None →
     let r := create st self_n name None None args in
     r.2 = Ok (Instance k (ArgVal <$> args)) ∧
     _objects r.1 !! _object_id self_n = Some (Instance k (ArgVal <$> args)) ∧
     _object_id r.1 = _object_id self_n + 1 ∧
     auto_ids self (ops ++ [Create st name None None args])
     = auto_ids self ops ++ [_object_id self_n]).
Proof.
  intros self self_n. destruct (auto_ids_from self ops) as [Hlow Hsorted].
  assert (_cls self_n = cls) as Hcls by apply run_cls.
  split_and!; try done.
  - intros st name config args self' obj H.
    apply create_cases in H as (_ & _ & Hfree & Hobjs & _). simpl in *.
    split; [by eapply new_ids_insert|]. rewrite Hobjs. apply lookup_insert_eq.
  - clear Hlow. induction Hsorted as [|i l _ IH Hall]; constructor; [|done].
    rewrite Forall_forall in Hall. intros Hin%Hall. lia.
  - intros st reg name k config args Hreg Hname r. rewrite <- Hcls in Hreg.
    split; [by eapply create_auto_advances|].
    intros obj Hobj. subst r.
    destruct (create st self_n name config None args) as [self' r'] eqn:H.
    simpl in *. subst r'.
    apply create_cases in H as (_ & _ & Hfree & Hobjs & _). simpl in *.
    split; [done|]. by eapply new_ids_insert.
  - intros st reg name k args Hreg Hname Hfree r. rewrite <- Hcls in Hreg.
    subst r. rewrite (create_auto_returns st self_n reg name k) by done.
    cbn [fst snd _objects _object_id]. split_and!; [done| |done|].
    + apply lookup_insert_eq.
    + rewrite auto_ids_app. fold self_n. f_equal. simpl.
      rewrite (create_auto_returns st self_n reg name k) by done.
      cbn [fst]. rewrite app_nil_r.
      by eapply new_ids_insert.
Qed.

Lemma auto_ids_start_at_1_and_increase_witness :
  auto_ids example_loader
    [Create example_state "derived2" (Some ∅) None [];
     Destroy 1;
     Create example_state "derived2" None None []] = [1; 2] ∧
  _object_id (run example_loader
                [Create example_state "derived2" (Some ∅) None [];
                 Destroy 1;
                 Create example_state "derived2" None None []]) = 3.
Proof.
  assert (∃ reg, registry example_state Base = Ok reg
                 ∧ reg !! "derived2" = Some Derived2) as (reg & Hreg & Hname).
  { eexists. split; vm_compute; reflexivity. }
  destruct (auto_ids_start_at_1_and_increase Base "ledfxcontroller.effects"
              [Create example_state "derived2" (Some ∅) None []; Destroy 1])
    as (_ & _ & _ & _ & _ & _ & Hreturns).
  destruct (Hreturns example_state reg "derived2" Derived2 [] Hreg Hname)
    as (_ & _ & Hnext & Hids).
  { vm_compute. reflexivity. }
  split.
  - change ([Create example_state "derived2" (Some ∅) None []; Destroy 1;
             Create example_state "derived2" None None []])
      with ([Create example_state "derived2" (Some ∅) None []; Destroy 1]
            ++ [Create example_state "derived2" None None []]).
    unfold example_loader. rewrite Hids. vm_compute. reflexivity.
  - vm_compute. reflexivity.
Defined.

(** ** Class tables *)

Lemma lookup_along_ext st st' cs attr :
  Forall (λ d, classes st' !! d = classes st !! d) cs →
  lookup_along st' cs attr = lookup_along st cs attr.
Proof.
  induction 1 as [|d cs Hd _ IH]; simpl; [done|].
  unfold own_attr. by rewrite Hd, IH.
Qed.

Lemma getattr_classes st st' c attr :
  classes st' = classes st → getattr st' c attr = getattr st c attr.
Proof.
  intros Hcl. unfold getattr, mro. rewrite Hcl.
  apply lookup_along_ext, Forall_forall. intros d _. by rewrite Hcl.
Qed.

Lemma fresh_class_not_in st (cs : list cid) :
  Forall (λ d, is_Some (classes st !! d)) cs →
  Forall (λ d, d ≠ fresh (dom (classes st))) cs.
Proof.
  intros H. eapply Forall_impl; [exact H|]. intros d Hd ->.
  apply elem_of_dom in Hd. by apply is_fresh in Hd.
Qed.

Lemma wf_initial_state : wf_state initial_state.
Proof.
  intros c k. unfold initial_state. simpl.
  rewrite !lookup_insert. repeat case_decide; subst;
    try (rewrite lookup_empty; done); intros [= <-]; split; simpl;
    try (eexists; split; [vm_compute; reflexivity|reflexivity]);
    try done; repeat constructor; vm_compute; eauto.
Qed.

Lemma wf_insert_class st ds c p b name module ty body :
  wf_state st →
  classes st !! c = None →
  classes st !! p = Some b →
  wf_state (PyState (<[c := PyClass name module (Some p) (c :: cls_mro b) ty body]>
                       (classes st)) ds).
Proof.
  intros Hwf Hc Hp c' k'. simpl.
  assert (p ≠ c) as Hpc by congruence.
  destruct (Hwf p b Hp) as [_ Hclosed].
  rewrite lookup_insert. case_decide as Hcc.
  - subst c'. intros [= <-]. split; simpl.
    + exists b. by rewrite lookup_insert_ne.
    + constructor; [rewrite lookup_insert_eq; eauto|].
      eapply Forall_impl; [exact Hclosed|]. intros d Hd. simpl.
      rewrite lookup_insert. by case_decide.
  - intros Hk'. destruct (Hwf c' k' Hk') as [Hbase Hcl]. split; simpl.
    + destruct (cls_base k') as [q|]; [|done].
      destruct Hbase as (bq & Hq & Hm). exists bq. split; [|done].
      rewrite lookup_insert_ne; [done|congruence].
    + eapply Forall_impl; [exact Hcl|]. intros d Hd. simpl.
      rewrite lookup_insert. by case_decide.
Qed.

Lemma mro_exists st p : BaseRegistry ∈ mro st p → is_Some (classes st !! p).
Proof.
  unfold mro. destruct (classes st !! p); [eauto|]. by intros ?%elem_of_nil.
Qed.

(** [setattr] on a class keeps every [__mro__] and so the well-formedness. *)
Lemma mro_setattr st c attr v d : mro (setattr st c attr v) d = mro st d.
Proof.
  unfold mro, setattr. simpl. rewrite lookup_alter.
  case_decide; [subst|done]. by destruct (classes st !! d).
Qed.

(** ** [__init_subclass__] and the class statement *)

Lemma registry_loc_Ok st c r :
  registry_loc st c = Ok r ↔
  getattr st c "_registry" = Some (VDict r) ∧ is_Some (dicts st !! r).
Proof.
  unfold registry_loc.
  destruct (getattr st c "_registry") as [[a|s|l]|]; try (split; [done|by intros [? ?]]).
  case_bool_decide; split.
  - by intros [= ->].
  - by intros [[= ->] _].
  - done.
  - intros [[= ->] ?]. done.
Qed.

(** The class sees a registry already: the hook writes into that one. *)
Lemma init_subclass_shared st cls r :
  registry_loc st cls = Ok r →
  __init_subclass__ st cls
  = Ok (PyState (classes st)
          (<[r := <[registration_name (module_of st cls) := cls]> (dict_at st r)]>
             (dicts st))).
Proof.
  intros Hr. unfold __init_subclass__, hasattr.
  pose proof Hr as [Hg _]%registry_loc_Ok.
  rewrite bool_decide_eq_true_2 by (rewrite Hg; eauto).
  rewrite Hr. reflexivity.
Qed.

(** The class sees no registry: the hook binds a new dict on the class itself
    and writes into it. *)
Lemma init_subclass_fresh st cls k :
  classes st !! cls = Some k →
  head (cls_mro k) = Some cls →
  getattr st cls "_registry" = None →
  let l := fresh (dom (dicts st)) in
  __init_subclass__ st cls
  = Ok (PyState (classes (setattr st cls "_registry" (VDict l)))
          (<[l := {[ registration_name (module_of st cls) := cls ]}]> (dicts st))).
Proof.
  intros Hk Hhead Hnone l. unfold __init_subclass__, hasattr.
  rewrite bool_decide_eq_false_2 by (rewrite Hnone; by intros [? ?]).
  unfold new_dict. fold l.
  set (st1 := setattr _ cls "_registry" (VDict l)).
  assert (getattr st1 cls "_registry" = Some (VDict l)) as Hg.
  { unfold getattr. unfold st1 at 2. rewrite mro_setattr.
    unfold mro. simpl. rewrite Hk.
    destruct (cls_mro k) as [|d ds]; [done|]. injection Hhead as ->.
    simpl. unfold own_attr, st1, setattr. simpl.
    rewrite lookup_alter_eq, Hk. simpl. by rewrite lookup_insert_eq. }
  assert (dicts st1 = <[l := ∅]> (dicts st)) as Hd by done.
  assert (registry_loc st1 cls = Ok l) as ->.
  { apply registry_loc_Ok. split; [done|]. rewrite Hd, lookup_insert_eq. eauto. }
  simpl. f_equal. f_equal.
  assert (module_of st1 cls = module_of st cls) as ->.
  { unfold module_of, st1, setattr. simpl. rewrite lookup_alter_eq, Hk. done. }
  unfold dict_at. rewrite !Hd, lookup_insert_eq. simpl.
  rewrite insert_insert_eq. by rewrite insert_empty.
Qed.

Lemma getattr_new_class st ds c k attr :
  head (cls_mro k) = Some c →
  Forall (λ d, d ≠ c) (tail (cls_mro k)) →
  getattr (PyState (<[c := k]> (classes st)) ds) c attr
  = match cls_dict k !! attr with
    | Some v => Some v
    | None => lookup_along st (tail (cls_mro k)) attr
    end.
Proof.
  intros Hhead Hne. unfold getattr, mro. simpl. rewrite lookup_insert_eq.
  destruct (cls_mro k) as [|d ds']; [done|]. injection Hhead as ->. simpl in *.
  unfold own_attr at 1. simpl. rewrite lookup_insert_eq. simpl.
  destruct (cls_dict k !! attr); [done|].
  apply lookup_along_ext. eapply Forall_impl; [exact Hne|].
  intros d Hd. simpl. by rewrite lookup_insert_ne.
Qed.

(** What the class statement does below [BaseRegistry]. *)
Lemma define_class_registers st name module p body :
  wf_state st →
  in_registry_hierarchy st p →
  body !! "_registry" = None →
  getattr st p "_registry" = None ∨ (∃ r0, registry_loc st p = Ok r0) →
  let c := fresh (dom (classes st)) in
  ∃ st' r own,
    define_class st name module p body = Ok (st', c) ∧
    classes st !! c = None ∧
    classes st'
    = <[c := PyClass name module (Some p) (c :: mro st p) (type_of st p) own]>
        (classes st) ∧
    dicts st'
    = <[r := <[registration_name module := c]> (dict_at st r)]> (dicts st) ∧
    registry_loc st' c = Ok r ∧
    (getattr st p "_registry" = None →
     dicts st !! r = None ∧ own = <["_registry" := VDict r]> body) ∧
    (∀ r0, registry_loc st p = Ok r0 → r = r0 ∧ own = body).
Proof.
  intros Hwf Hin Hbody Hreg c.
  destruct (mro_exists _ _ Hin) as [b Hb].
  assert (classes st !! c = None) as Hfresh.
  { apply not_elem_of_dom, is_fresh. }
  assert (mro st p = cls_mro b) as Hmro by (unfold mro; by rewrite Hb).
  assert (type_of st p = cls_type b) as Hty by (unfold type_of; by rewrite Hb).
  destruct (Hwf p b Hb) as [_ Hclosed].
  pose proof (fresh_class_not_in st _ Hclosed) as Hne. fold c in Hne.
  unfold in_registry_hierarchy in Hin. rewrite Hmro in Hin.
  unfold define_class. rewrite Hb. fold c.
  rewrite bool_decide_eq_true_2 by done.
  set (k := PyClass name module (Some p) (c :: cls_mro b) (cls_type b) body).
  set (st1 := PyState (<[c := k]> (classes st)) (dicts st)).
  assert (getattr st1 c "_registry" = getattr st p "_registry") as Hsame.
  { unfold st1. rewrite getattr_new_class by done. simpl. rewrite Hbody.
    unfold getattr. by rewrite Hmro. }
  assert (module_of st1 c = module) as Hmod.
  { unfold module_of, st1. simpl. by rewrite lookup_insert_eq. }
  rewrite Hmro, Hty.
  destruct Hreg as [Hnone|[r0 Hr0]].
  - set (l := fresh (dom (dicts st))).
    assert (dicts st !! l = None) as Hl by apply not_elem_of_dom, is_fresh.
    exists (PyState (classes (setattr st1 c "_registry" (VDict l)))
              (<[l := {[ registration_name module := c ]}]> (dicts st))),
           l, (<["_registry" := VDict l]> body).
    assert (classes (setattr st1 c "_registry" (VDict l))
            = <[c := PyClass name module (Some p) (c :: cls_mro b) (cls_type b)
                       (<["_registry" := VDict l]> body)]> (classes st)) as Hcl.
    { unfold setattr, st1. simpl. by rewrite alter_insert_eq. }
    split_and!.
    + rewrite (init_subclass_fresh st1 c k); simpl;
        [by rewrite Hmod| apply lookup_insert_eq| done| by rewrite Hsame].
    + done.
    + done.
    + simpl. unfold dict_at. rewrite Hl. simpl. by rewrite insert_empty.
    + apply registry_loc_Ok. rewrite Hcl. split.
      * rewrite getattr_new_class by done. simpl. by rewrite lookup_insert_eq.
      * simpl. rewrite lookup_insert_eq. eauto.
    + done.
    + intros r1 [Hg _]%registry_loc_Ok. congruence.
  - pose proof Hr0 as [Hg0 Hd0]%registry_loc_Ok.
    exists (PyState (classes st1)
              (<[r0 := <[registration_name module := c]> (dict_at st r0)]> (dicts st))),
           r0, body.
    split_and!.
    + rewrite (init_subclass_shared st1 c r0).
      * simpl. by rewrite Hmod.
      * apply registry_loc_Ok. by rewrite Hsame.
    + done.
    + done.
    + done.
    + apply registry_loc_Ok. split.
      * unfold st1. simpl. rewrite getattr_new_class by done. simpl.
        rewrite Hbody. unfold getattr in Hg0. by rewrite Hmro in Hg0.
      * simpl. rewrite lookup_insert_eq. eauto.
    + intros Hnone. congruence.
    + intros r1 [Hg _]%registry_loc_Ok. split; [congruence|done].
Qed.

Lemma wf_state_classes st st' :
  classes st' = classes st → wf_state st → wf_state st'.
Proof.
  intros Hcl Hwf c k. unfold wf_class. rewrite Hcl. apply Hwf.
Qed.

Lemma wf_setattr st c attr v : wf_state st → wf_state (setattr st c attr v).
Proof.
  intros Hwf c' k'. unfold setattr. simpl.
  assert (∀ d, is_Some (classes st !! d) →
               is_Some (alter (λ k, PyClass (cls_name k) (cls_module k) (cls_base k)
                                     (cls_mro k) (cls_type k)
                                     (<[attr := v]> (cls_dict k))) c (classes st) !! d))
    as Hsome.
  { intros d Hd. rewrite lookup_alter. case_decide; [subst|done].
    by apply fmap_is_Some. }
  intros Hk'. unfold wf_class. simpl.
  assert (∃ k, classes st !! c' = Some k ∧ cls_base k' = cls_base k
               ∧ cls_mro k' = cls_mro k) as (k & Hk & -> & ->).
  { rewrite lookup_alter in Hk'. case_decide; [subst c'|by eauto].
    destruct (classes st !! c) as [k|]; [|done]. injection Hk' as <-. by eauto. }
  destruct (Hwf c' k Hk) as [Hbase Hcl]. split.
  - destruct (cls_base k) as [q|]; [|done].
    destruct Hbase as (bq & Hq & Hm). rewrite lookup_alter.
    case_decide; [subst q|by eauto]. rewrite Hq. simpl. by eauto.
  - eapply Forall_impl; [exact Hcl|]. apply Hsome.
Qed.

Lemma init_subclass_wf st cls st' :
  wf_state st → __init_subclass__ st cls = Ok st' → wf_state st'.
Proof.
  intros Hwf. unfold __init_subclass__.
  destruct (hasattr st cls "_registry").
  - destruct (registry_loc st cls); simpl; [|done]. intros [= <-].
    by eapply wf_state_classes.
  - unfold new_dict.
    set (st1 := setattr _ cls "_registry" _).
    destruct (registry_loc st1 cls); simpl; [|done]. intros [= <-].
    apply (wf_state_classes st1); [done|]. apply wf_setattr.
    by eapply wf_state_classes.
Qed.

(** Well-formedness is an invariant of the class statement. *)
Lemma define_class_wf st name module p body st' c :
  wf_state st → define_class st name module p body = Ok (st', c) → wf_state st'.
Proof.
  intros Hwf. unfold define_class.
  destruct (classes st !! p) as [b|] eqn:Hb; [|done].
  assert (classes st !! fresh (dom (classes st)) = None) as Hfresh.
  { apply not_elem_of_dom, is_fresh. }
  pose proof (wf_insert_class st (dicts st) _ p b name module (cls_type b) body
                Hwf Hfresh Hb) as Hwf1.
  case_bool_decide.
  - destruct (__init_subclass__ _ _) as [st2|] eqn:Hinit; simpl; [|done].
    intros [= <- <-]. by eapply init_subclass_wf.
  - by intros [= <- <-].
Qed.

Lemma no_registration_wf st cls st' c :
  wf_state st → no_registration st cls = Ok (st', c) → wf_state st'.
Proof.
  intros Hwf. unfold no_registration.
  destruct (registry_loc st cls) as [l|]; simpl; [|done].
  destruct (dict_at st l !! _); [|done]. intros [= <- <-].
  by eapply wf_state_classes.
Qed.

Lemma wf_example_state : wf_state example_state.
Proof.
  unfold example_state, example_program.
  destruct (define_class initial_state _ _ _ _) as [[st1 c1]|] eqn:H1; simpl;
    [|apply wf_initial_state].
  apply define_class_wf in H1; [|apply wf_initial_state].
  destruct (define_class st1 _ _ _ _) as [[st2 c2]|] eqn:H2; simpl;
    [|apply wf_initial_state].
  apply define_class_wf in H2; [|done].
  destruct (define_class st2 _ _ _ _) as [[st3 c3]|] eqn:H3; simpl;
    [|apply wf_initial_state].
  by apply define_class_wf in H3.
Qed.

(** ** BaseRegistry: registration and exclusion *)

(** C7.  [no_registration(cls)] on a class whose computed name has no entry
    in the registry raises [KeyError], a lookup error; when the name has an
    entry, exactly that entry is deleted: the name is no longer in the
    name-to-type mapping, every other entry stays, and nothing else changes. *)
Theorem no_registration_removes st cls r :
  registry_loc st cls = Ok r →
  let name := registration_name (module_of st cls) in
  (dict_at st r !! name = None →
   no_registration st cls = Raise (KeyError name)) ∧
  (is_Some (dict_at st r !! name) →
   ∃ st', no_registration st cls = Ok (st', cls) ∧
          registry st' cls = Ok (delete name (dict_at st r)) ∧
          dict_at st' r !! name = None ∧
          (∀ n, n ≠ name → dict_at st' r !! n = dict_at st r !! n) ∧
          classes st' = classes st ∧
          (∀ l, l ≠ r → dicts st' !! l = dicts st !! l)).
Proof.
  intros Hr name. unfold no_registration. fold name. rewrite Hr. simpl. split.
  - by intros ->.
  - intros [T HT]. rewrite HT. eexists. split; [reflexivity|].
    pose proof Hr as [Hg Hd]%registry_loc_Ok.
    set (st' := PyState _ _).
    assert (dict_at st' r = delete name (dict_at st r)) as Hat.
    { unfold dict_at at 1. unfold st'. simpl. by rewrite lookup_insert_eq. }
    assert (registry_loc st' cls = Ok r) as Hr'.
    { apply registry_loc_Ok. split; [by rewrite (getattr_classes st)|].
      unfold st'. simpl. rewrite lookup_insert_eq. eauto. }
    split_and!.
    + unfold registry. rewrite Hr'. simpl. by rewrite Hat.
    + rewrite Hat. apply lookup_delete_eq.
    + intros n Hn. rewrite Hat. by apply lookup_delete_ne.
    + done.
    + intros l Hl. unfold st'. simpl. by rewrite lookup_insert_ne.
Qed.

Lemma no_registration_removes_witness :
  ∃ st', no_registration example_state Derived = Ok (st', Derived) ∧
         dict_at st' 0%nat !! "derived" = None ∧
         no_registration st' Derived = Raise (KeyError "derived").
Proof.
  assert (registry_loc example_state Derived = Ok 0%nat) as Hr
    by (vm_compute; reflexivity).
  destruct (no_registration_removes example_state Derived 0%nat Hr) as [_ H].
  destruct H as (st' & Hrun & _ & Hgone & _ & Hcl & _).
  { vm_compute. eauto. }
  exists st'. split_and!; [exact Hrun|exact Hgone|].
  assert (registry_loc st' Derived = Ok 0%nat) as Hr'.
  { apply (f_equal (λ x, match x with Ok (s, _) => registry_loc s Derived
                                  | Raise e => Raise e end)) in Hrun.
    rewrite <- Hrun. vm_compute. reflexivity. }
  assert (module_of st' Derived = module_of example_state Derived) as Hmod.
  { unfold module_of. by rewrite Hcl. }
  pose proof (proj1 (no_registration_removes st' Derived 0%nat Hr')) as Hkey.
  simpl in Hkey. rewrite Hmod in Hkey.
  change (registration_name (module_of example_state Derived))
    with "derived" in Hkey.
  exact (Hkey Hgone).
Defined.

(** C4.  Two classes defined one after the other whose modules end in the
    same segment, both in the hierarchy of one registry: both class
    statements succeed, after the first the registry maps the name to the
    first class, after the second to the second class and to nothing else. *)
Theorem same_name_last_definition_wins st n1 m1 p1 body1 n2 m2 body2 :
  wf_state st →
  in_registry_hierarchy st p1 →
  getattr st p1 "_registry" = None ∨ (∃ r0, registry_loc st p1 = Ok r0) →
  body1 !! "_registry" = None →
  body2 !! "_registry" = None →
  registration_name m1 = registration_name m2 →
  ∃ st1 T1 r,
    define_class st n1 m1 p1 body1 = Ok (st1, T1) ∧
    registry_loc st1 T1 = Ok r ∧
    registry st1 T1 = Ok (dict_at st1 r) ∧
    dict_at st1 r !! registration_name m1 = Some T1 ∧
    ∀ p2,
      in_registry_hierarchy st1 p2 →
      registry_loc st1 p2 = Ok r →
      ∃ st2 T2,
        define_class st1 n2 m2 p2 body2 = Ok (st2, T2) ∧
        T2 ≠ T1 ∧
        registry st2 T2 = Ok (dict_at st2 r) ∧
        dict_at st2 r !! registration_name m1 = Some T2 ∧
        (∀ T, dict_at st2 r !! registration_name m1 = Some T → T = T2).
Proof.
  intros Hwf Hin Hreg Hb1 Hb2 Hname.
  destruct (define_class_registers st n1 m1 p1 body1 Hwf Hin Hb1 Hreg)
    as (st1 & r & own & Hdef1 & Hfresh1 & Hcl1 & Hd1 & Hr1 & _).
  exists st1, (fresh (dom (classes st))), r.
  assert (dict_at st1 r !! registration_name m1 = Some (fresh (dom (classes st))))
    as Hlk1.
  { unfold dict_at. rewrite Hd1, lookup_insert_eq. simpl. apply lookup_insert_eq. }
  split_and!; [done|done|by unfold registry; rewrite Hr1|done|].
  intros p2 Hin2 Hr2.
  pose proof (define_class_wf _ _ _ _ _ _ _ Hwf Hdef1) as Hwf1.
  destruct (define_class_registers st1 n2 m2 p2 body2 Hwf1 Hin2 Hb2
              (or_intror (ex_intro _ r Hr2)))
    as (st2 & r' & own2 & Hdef2 & Hfresh2 & Hcl2 & Hd2 & Hr2' & _ & Hshared).
  destruct (Hshared r Hr2) as [-> _].
  exists st2, (fresh (dom (classes st1))).
  assert (dict_at st2 r !! registration_name m1 = Some (fresh (dom (classes st1))))
    as Hlk2.
  { unfold dict_at at 1. rewrite Hd2, lookup_insert_eq. simpl.
    rewrite Hname. apply lookup_insert_eq. }
  split_and!; [done| |by unfold registry; rewrite Hr2'|done|congruence].
  intros Heq. rewrite Heq in Hfresh2. rewrite Hcl1 in Hfresh2.
  by rewrite lookup_insert_eq in Hfresh2.
Qed.

Lemma same_name_last_definition_wins_witness :
  ∃ st1 T1 st2 T2,
    define_class example_state "Rainbow" "ledfxcontroller.effects.rainbow" Base ∅
    = Ok (st1, T1) ∧
    define_class st1 "Rainbow2" "plugins.rainbow" T1 ∅ = Ok (st2, T2) ∧
    dict_at st1 0%nat !! "rainbow" = Some T1 ∧
    dict_at st2 0%nat !! "rainbow" = Some T2 ∧
    T2 ≠ T1.
Proof.
  assert (in_registry_hierarchy example_state Base) as Hin.
  { vm_compute. repeat constructor. }
  assert (registry_loc example_state Base = Ok 0%nat) as Hr
    by (vm_compute; reflexivity).
  destruct (same_name_last_definition_wins example_state
              "Rainbow" "ledfxcontroller.effects.rainbow" Base ∅
              "Rainbow2" "plugins.rainbow" ∅
              wf_example_state Hin (or_intror (ex_intro _ _ Hr))
              (lookup_empty _) (lookup_empty _) eq_refl)
    as (st1 & T1 & r & Hdef1 & Hr1 & _ & Hlk1 & Hnext).
  assert (∃ s, define_class example_state "Rainbow"
                 "ledfxcontroller.effects.rainbow" Base ∅ = Ok (s, 8%nat)
               ∧ in_registry_hierarchy s 8%nat
               ∧ registry_loc s 8%nat = Ok 0%nat) as (s & E & Hin1 & Hr1').
  { eexists. split_and!; [vm_compute; reflexivity| |vm_compute; reflexivity].
    vm_compute. repeat constructor. }
  rewrite E in Hdef1. injection Hdef1 as <- <-.
  rewrite Hr1' in Hr1. injection Hr1 as <-.
  destruct (Hnext 8%nat Hin1 Hr1') as (st2 & T2 & Hdef2 & Hne & _ & Hlk2 & _).
  exists s, 8%nat, st2, T2. split_and!; done.
Defined.




(** ** Schema composition *)

Lemma atom_eqb_refl a : atom_eqb a a = true.
Proof. destruct a; simpl; try done; by apply bool_decide_eq_true_2. Qed.

Lemma py_ne_refl st v : py_ne st v v = false.
Proof.
  destruct v; simpl; [by rewrite atom_eqb_refl| |];
    by rewrite bool_decide_eq_true_2.
Qed.

(** On a well-formed class, the code's test (the value visible on the class
    against the value visible past it in its [__mro__]) picks what the class
    declares explicitly. *)
Lemma getattr_explicit_declared st attr c k :
  wf_state st →
  classes st !! c = Some k →
  getattr_explicit st c attr [VAtom ANone]
  = Ok (default (VAtom ANone) (declared_here st attr c)).
Proof.
  intros Hwf Hk. destruct (Hwf c k Hk) as [Hbase _].
  assert (∃ rest, cls_mro k = c :: rest ∧
            default (VAtom ANone) (lookup_along st rest attr)
            = match cls_base k with
              | Some p => default (VAtom ANone) (getattr st p attr)
              | None => VAtom ANone
              end) as (rest & Hmro & Hrest).
  { destruct (cls_base k) as [p|].
    - destruct Hbase as (b & Hb & ->). eexists. split; [done|].
      unfold getattr, mro. by rewrite Hb.
    - rewrite Hbase. by eexists. }
  assert (own_attr st c attr = cls_dict k !! attr) as Hown.
  { unfold own_attr. by rewrite Hk. }
  unfold getattr_explicit. simpl.
  unfold hasattr_explicit, getattr_super, getattr, declared_here, mro.
  rewrite Hk, Hmro. simpl. rewrite Hown, Hrest.
  destruct (cls_dict k !! attr) as [v|]; simpl.
  - by destruct (py_ne st v _).
  - rewrite <- Hrest.
    destruct (lookup_along st rest attr) as [v|]; simpl; [|done].
    by rewrite py_ne_refl.
Qed.

Lemma declared_here_own st attr c v :
  declared_here st attr c = Some v → own_attr st c attr = Some v.
Proof.
  unfold declared_here, own_attr. destruct (classes st !! c) as [k|]; simpl; [|done].
  destruct (cls_dict k !! attr) as [w|]; simpl; [|done].
  by destruct (py_ne st w _).
Qed.

Lemma compose_foldl st attr cs acc :
  wf_state st →
  Forall (λ d, is_Some (classes st !! d)) cs →
  schema_declarations st attr cs →
  compose st attr cs acc = Ok (foldl (merge_fragment st attr) acc cs).
Proof.
  intros Hwf Hcs. revert acc. induction Hcs as [|c cs [k Hk] _ IH];
    intros acc Hdecl; simpl; [done|].
  rewrite (getattr_explicit_declared st attr c k Hwf Hk). simpl.
  assert (schema_declarations st attr cs) as Hdecl'.
  { intros d v Hd. apply Hdecl. by apply list_elem_of_further. }
  unfold merge_fragment at 2. unfold fragment.
  destruct (declared_here st attr c) as [v|] eqn:Hv; simpl; [|by apply IH].
  destruct (Hdecl c v (list_elem_of_here _ _) (declared_here_own _ _ _ _ Hv))
    as [->|[s ->]]; by apply IH.
Qed.

Lemma foldl_merge_fragment_extra st attr cs acc :
  schema_extra (foldl (merge_fragment st attr) acc cs) = schema_extra acc.
Proof.
  revert acc. induction cs as [|c cs IH]; intros acc; simpl; [done|].
  rewrite IH. unfold merge_fragment. by destruct (fragment st attr c).
Qed.

(** Root first merging shows, for every field, the most derived declaration. *)
Lemma foldl_merge_fragment_lookup st attr chain acc f :
  schema_fields (foldl (merge_fragment st attr) acc (rev chain)) !! f
  = match most_derived st attr chain f with
    | Some fld => Some fld
    | None => schema_fields acc !! f
    end.
Proof.
  induction chain as [|c chain IH]; simpl; [done|].
  rewrite foldl_app. simpl. unfold merge_fragment at 1.
  destruct (fragment st attr c) as [fs|]; simpl; [|exact IH].
  rewrite lookup_union. destruct (fs !! f) as [fld|]; simpl.
  - by destruct (schema_fields _ !! f).
  - rewrite IH. rewrite (left_id_L None (∪)). done.
Qed.

(** With one base per class throughout: on a class [T] whose ancestors
    declare schemas (or [None]) under the schema attribute,
    [schema(extended=True, extra)] returns the schema that results from
    walking [T.__mro__] from the root to [T] and merging, in that order, the
    fragment of each class that declares one explicitly (the value bound on
    the class itself differs from the value visible on its parent).  It
    carries the policy [extra], and every field shows the declaration of the
    most derived class that names it. *)
Lemma composed_schema_single_base st T attr extra :
  wf_state st →
  _schema_attr st T = Ok attr →
  schema_declarations st attr (mro st T) →
  ∃ S,
    schema st T true extra = Ok (VSchema S) ∧
    S = foldl (merge_fragment st attr) (MkSchema ∅ extra) (rev (mro st T)) ∧
    schema_extra S = extra ∧
    ∀ f, schema_fields S !! f = most_derived st attr (mro st T) f.
Proof.
  intros Hwf Hattr Hdecl. eexists. split_and!; [|reflexivity| |].
  - unfold schema. rewrite Hattr. simpl.
    rewrite compose_foldl; [done|done| |].
    + apply Forall_rev. unfold mro.
      destruct (classes st !! T) as [k|] eqn:Hk; [|constructor].
      by destruct (Hwf T k Hk).
    + intros c v Hc. apply Hdecl.
      apply list_elem_of_In, in_rev. by apply list_elem_of_In.
  - apply foldl_merge_fragment_extra.
  - intros f. rewrite foldl_merge_fragment_lookup. simpl.
    rewrite lookup_empty. by destruct (most_derived st attr (mro st T) f).
Qed.


(** When the metaclass of [self] binds nothing under the schema attribute,
    [schema(extended=False)] is the empty schema whatever [self] declares. *)
Lemma schema_not_extended_metaclass st self attr extra :
  _schema_attr st self = Ok attr →
  getattr st (type_of st self) attr = None →
  schema st self false extra = Ok (VSchema Schema_empty).
Proof.
  intros Hattr Hmeta. unfold schema. rewrite Hattr. simpl.
  unfold getattr_explicit, hasattr_explicit. simpl. by rewrite Hmeta.
Qed.

(** C3 on the example: [Base] declares [{a: int, default 1}] explicitly, and
    [getattr_explicit] on [Base] returns it, but [schema(extended=False)]
    asks [type(self)], the metaclass [ABCMeta], and returns the empty
    schema. *)
Theorem schema_not_extended_returns_empty :
  declared_here example_state "CONFIG_SCHEMA" Base = Some (VSchema Base_schema) ∧
  getattr_explicit example_state Base "CONFIG_SCHEMA" [VSchema Schema_empty]
  = Ok (VSchema Base_schema) ∧
  type_of example_state Base = ABCMeta ∧
  schema example_state Base false ALLOW_EXTRA = Ok (VSchema Schema_empty) ∧
  schema example_state Base false ALLOW_EXTRA ≠ Ok (VSchema Base_schema).
Proof.
  split_and!; try (vm_compute; reflexivity).
  vm_compute. intros H. discriminate H.
Qed.

(** * Further properties of the code *)

(** ** The registration name *)

Lemma split_not_nil sep s : split sep s ≠ [].
Proof.
  destruct s as [|a s]; simpl; [done|].
  case_decide; [done|]. by destruct (split sep s).
Qed.

Lemma split_no_sep sep s : Forall (λ w, has_char sep w = false) (split sep s).
Proof.
  induction s as [|a s IH]; simpl.
  { by repeat constructor. }
  case_decide as Ha; [by constructor|].
  destruct (split sep s) as [|w ws]; simpl.
  - repeat constructor. simpl. by rewrite bool_decide_eq_false_2.
  - inversion_clear IH as [|? ? Hw Hws]. constructor; [|done].
    simpl. by rewrite bool_decide_eq_false_2.
Qed.

Lemma split_without_sep sep s : has_char sep s = false → split sep s = [s].
Proof.
  induction s as [|a s IH]; simpl; [done|].
  intros [Ha Hs]%orb_false_elim. apply bool_decide_eq_false_1 in Ha.
  rewrite decide_False by done. by rewrite (IH Hs).
Qed.

Lemma split_app sep p s :
  split sep (p +:+ String sep s) = split sep p ++ split sep s.
Proof.
  induction p as [|a p IH]; simpl.
  - by rewrite decide_True.
  - case_decide; [by rewrite IH|]. rewrite IH.
    pose proof (split_not_nil sep p). by destruct (split sep p).
Qed.

(** X1.  The name under which a class is registered never contains a dot. *)
Theorem registration_name_no_dot module :
  has_char "." (registration_name module) = false.
Proof.
  unfold registration_name.
  pose proof (split_no_sep "." module) as Hall.
  destruct (last (split "." module)) as [w|] eqn:Hlast; [|done].
  rewrite Forall_forall in Hall. apply Hall. simpl.
  apply last_Some in Hlast as [l ->]. apply elem_of_app. right. by left.
Qed.

(** X2.  A module name without a dot is the registration name itself. *)
Theorem registration_name_top_level module :
  has_char "." module = false → registration_name module = module.
Proof.
  intros H. unfold registration_name. by rewrite (split_without_sep _ _ H).
Qed.

Lemma registration_name_top_level_witness :
  registration_name "rainbow" = "rainbow".
Proof. exact (registration_name_top_level "rainbow" eq_refl). Defined.

(** X3.  The registration name depends on the text after the last dot only:
    the packages in front do not count, so modules of different packages
    that end alike get the same name. *)
Theorem registration_name_ignores_package package module :
  registration_name (package +:+ String "." module) = registration_name module.
Proof.
  unfold registration_name. rewrite split_app.
  pose proof (split_not_nil "." module) as Hne.
  destruct (split "." module) as [|w ws] eqn:Hs; [done|].
  by rewrite last_app_cons.
Qed.

(** ** The reflection helpers *)

(** The value that the base of a class shows for [attr], Python's [None] when
    it shows none or when there is no base. *)
Lemma explicit_test st attr c k :
  wf_state st →
  classes st !! c = Some k →
  let inherited :=
    match cls_base k with
    | Some p => default (VAtom ANone) (getattr st p attr)
    | None => VAtom ANone
    end in
  getattr_super st c attr = inherited ∧
  getattr st c attr
  = match cls_dict k !! attr with
    | Some v => Some v
    | None => match cls_base k with
              | Some p => getattr st p attr
              | None => None
              end
    end.
Proof.
  intros Hwf Hk inherited. destruct (Hwf c k Hk) as [Hbase _].
  unfold getattr_super, getattr, mro. rewrite Hk. subst inherited.
  assert (own_attr st c attr = cls_dict k !! attr) as Hown.
  { unfold own_attr. by rewrite Hk. }
  destruct (cls_base k) as [p|].
  - destruct Hbase as (b & Hb & ->). simpl. rewrite Hown.
    unfold getattr, mro. rewrite Hb. done.
  - rewrite Hbase. simpl. rewrite Hown. done.
Qed.

(** X4.  An attribute that a class only inherits is not explicit on it:
    [hasattr_explicit] is false, [getattr_explicit] returns the default when
    one is given and raises [AttributeError] when none is, although
    [getattr] may well find the attribute. *)
Theorem inherited_attribute_not_explicit st attr c k :
  wf_state st →
  classes st !! c = Some k →
  cls_dict k !! attr = None →
  hasattr_explicit st c attr = false ∧
  getattr_explicit st c attr [] = Raise (AttributeError_no_attribute attr) ∧
  ∀ d, getattr_explicit st c attr [d] = Ok d.
Proof.
  intros Hwf Hk Hown.
  destruct (explicit_test st attr c k Hwf Hk) as [Hsuper Hget].
  rewrite Hown in Hget.
  assert (hasattr_explicit st c attr = false) as Hno.
  { unfold hasattr_explicit. rewrite Hsuper, Hget.
    destruct (cls_base k) as [p|]; [|done].
    destruct (getattr st p attr) as [v|]; [|done]. apply py_ne_refl. }
  split_and!; [done| |intros d]; unfold getattr_explicit; simpl; by rewrite Hno.
Qed.

Lemma inherited_attribute_not_explicit_witness :
  getattr example_state Derived "_schema_attr" = Some (VAtom (AStr "CONFIG_SCHEMA")) ∧
  getattr_explicit example_state Derived "_schema_attr" []
  = Raise (AttributeError_no_attribute "_schema_attr").
Proof.
  split; [vm_compute; reflexivity|].
  assert (∃ k, classes example_state !! Derived = Some k
               ∧ cls_dict k !! "_schema_attr" = None) as (k & Hk & Hown).
  { eexists. split; vm_compute; reflexivity. }
  exact (proj1 (proj2 (inherited_attribute_not_explicit example_state
                         "_schema_attr" Derived k wf_example_state Hk Hown))).
Defined.



(** ** RegistryLoader: storing and removing *)

Lemma values_length self : length (values self) = size (_objects self).
Proof. unfold values. by rewrite length_fmap, length_map_to_list. Qed.

(** X6.  A call to [create] that returns stores the returned instance under
    the resolved id (the given id, or the counter's value), leaves every
    other entry alone, and [values()] has one more element and contains the
    instance. *)
Theorem create_stores_instance st self name config id args self' obj :
  create st self name config id args = (self', Ok obj) →
  let i := default (_object_id self) id in
  _objects self !! i = None ∧
  _objects self' !! i = Some obj ∧
  (∀ j, j ≠ i → _objects self' !! j = _objects self !! j) ∧
  length (values self') = S (length (values self)) ∧
  obj ∈ values self'.
Proof.
  intros H i. apply create_cases in H as (_ & _ & Hfree & Hobjs & _).
  fold i in Hfree, Hobjs.
  assert (_objects self' !! i = Some obj) as Hi.
  { rewrite Hobjs. apply lookup_insert_eq. }
  split_and!; [done|done| | |].
  - intros j Hj. rewrite Hobjs. by apply lookup_insert_ne.
  - rewrite !values_length, Hobjs. by apply map_size_insert_None.
  - unfold values. apply list_elem_of_fmap. exists (i, obj). split; [done|].
    by apply elem_of_map_to_list.
Qed.

Lemma create_stores_instance_witness :
  ∃ obj, _objects (create example_state example_loader "derived2" (Some ∅) None []).1
         !! 1 = Some obj.
Proof.
  destruct (create example_state example_loader "derived2" (Some ∅) None [])
    as [self' r] eqn:H.
  assert (∃ obj, r = Ok obj) as [obj ->].
  { change r with (self', r).2. rewrite <- H. eexists. vm_compute. reflexivity. }
  exists obj.
  exact (proj1 (proj2 (create_stores_instance _ _ _ _ _ _ _ _ H))).
Defined.

(** X7.  [destroy] undoes what a returning [create] did to the mapping, the
    mapping is again what it was before the [create]; it does not give the
    id back to the counter. *)
Theorem create_then_destroy st self name config id args self' obj :
  create st self name config id args = (self', Ok obj) →
  let i := default (_object_id self) id in
  (destroy self' i).2 = Ok () ∧
  _objects (destroy self' i).1 = _objects self ∧
  _object_id (destroy self' i).1 = _object_id self' ∧
  _object_id self' = match id with
                     | None => _object_id self + 1
                     | Some _ => _object_id self
                     end.
Proof.
  intros H i. apply create_cases in H as (_ & _ & Hfree & Hobjs & Hnext).
  fold i in Hfree, Hobjs.
  rewrite (destroy_live self' i obj) by (rewrite Hobjs; apply lookup_insert_eq).
  simpl. rewrite Hobjs. split_and!; [done| |done|done].
  by apply delete_insert_id.
Qed.

Lemma create_then_destroy_witness :
  _objects (destroy (create example_state example_loader "derived2" (Some ∅)
                            None []).1 1).1 = ∅ ∧
  _object_id (destroy (create example_state example_loader "derived2" (Some ∅)
                              None []).1 1).1 = 2.
Proof.
  destruct (create example_state example_loader "derived2" (Some ∅) None [])
    as [self' r] eqn:H.
  assert (∃ obj, r = Ok obj) as [obj ->].
  { change r with (self', r).2. rewrite <- H. eexists. vm_compute. reflexivity. }
  destruct (create_then_destroy _ _ _ _ _ _ _ _ H) as (_ & Hobjs & Hid & Hnext).
  simpl in *. split; [exact Hobjs|]. rewrite Hid, Hnext. reflexivity.
Defined.

(** X8.  After [destroy(i)] the id is gone: a second [destroy(i)] raises
    "does not exist", [values()] has one element less, and a [create] that
    passes [i] explicitly stores a new instance under it. *)
Theorem destroyed_id_is_free self i :
  is_Some (_objects self !! i) →
  let self' := (destroy self i).1 in
  destroy self' i = (self', Raise (AttributeError_does_not_exist i)) ∧
  S (length (values self')) = length (values self) ∧
  ∀ st reg name k args,
    registry st (_cls self) = Ok reg →
    reg !! name = Some k →
    ∃ self'',
      create st self' name None (Some i) args
      = (self'', Ok (Instance k (ArgVal <$> args))) ∧
      _objects self'' !! i = Some (Instance k (ArgVal <$> args)).
Proof.
  intros [obj Hobj] self'. subst self'.
  rewrite (destroy_live self i obj Hobj). simpl.
  set (self' := set_objects self (delete i (_objects self))).
  assert (_objects self' !! i = None) as Hfree by apply lookup_delete_eq.
  split_and!.
  - by apply destroy_missing.
  - rewrite !values_length. simpl.
    rewrite map_size_delete_Some by eauto.
    assert (size (_objects self) ≠ 0%nat); [|lia].
    intros Hz%map_size_empty_iff. by rewrite Hz in Hobj.
  - intros st reg name k args Hreg Hname.
    destruct (create st self' name None (Some i) args) as [self'' r] eqn:H.
    pose proof (create_reaches_constructor st self' reg name k None (Some i) args
                  Hreg Hname Hfree) as Hr.
    rewrite H in Hr. simpl in Hr. subst r. exists self''. split; [done|].
    by destruct (create_stores_instance _ _ _ _ _ _ _ _ H) as (_ & ? & _).
Qed.

Lemma destroyed_id_is_free_witness :
  destroy (destroy example_loader_5 5).1 5
  = ((destroy example_loader_5 5).1, Raise (AttributeError_does_not_exist 5)).
Proof.
  assert (is_Some (_objects example_loader_5 !! 5)) as H by (vm_compute; eauto).
  exact (proj1 (destroyed_id_is_free example_loader_5 5 H)).
Defined.

(** ** RegistryLoader: the counter and ids of the caller's choosing *)

(** X9.  A [create] that is given an id never touches the next-auto-id
    counter, whether it returns or raises. *)
Theorem explicit_id_leaves_counter st self name config i args :
  _object_id (create st self name config (Some i) args).1 = _object_id self.
Proof.
  destruct (create st self name config (Some i) args) as [self' r] eqn:H.
  apply create_cases in H as (_ & _ & H). simpl.
  destruct r as [obj|e].
  - by destruct H as (_ & _ & ->).
  - destruct H as (_ & [->|[? _]]); done.
Qed.

(** X10.  When the caller has stored an instance under the very id that the
    counter holds, the next [create] without id raises "already created" for
    that id, stores nothing, and moves the counter past it. *)
Theorem auto_id_taken_by_caller st self reg name k config args :
  registry st (_cls self) = Ok reg →
  reg !! name = Some k →
  is_Some (_objects self !! _object_id self) →
  create st self name config None args
  = (set_object_id self (_object_id self + 1),
     Raise (AttributeError_already_created (_object_id self))).
Proof.
  intros Hreg Hname Hlive. unfold create. rewrite Hreg.
  rewrite bool_decide_eq_false_2 by congruence. simpl.
  by rewrite bool_decide_eq_true_2.
Qed.

Lemma auto_id_taken_by_caller_witness :
  create example_state example_loader_1 "derived2" (Some ∅) None []
  = (set_object_id example_loader_1 2, Raise (AttributeError_already_created 1)).
Proof.
  assert (∃ reg, registry example_state (_cls example_loader_1) = Ok reg
                 ∧ reg !! "derived2" = Some Derived2) as (reg & Hreg & Hname).
  { eexists. split; vm_compute; reflexivity. }
  assert (is_Some (_objects example_loader_1 !! _object_id example_loader_1))
    as Hlive by (vm_compute; eauto).
  exact (auto_id_taken_by_caller example_state example_loader_1 reg "derived2"
           Derived2 (Some ∅) [] Hreg Hname Hlive).
Defined.

Lemma create_already_created st self name config id args self' j :
  create st self name config id args
  = (self', Raise (AttributeError_already_created j)) →
  j = default (_object_id self) id ∧ is_Some (_objects self !! j).
Proof.
  unfold create. destruct (registry st (_cls self)) as [reg|e0] eqn:Hreg.
  2:{ intros [= <- ->]. apply registry_raises in Hreg as [?|?]; done. }
  case_bool_decide as Hname; [done|].
  destruct id as [i|]; simpl;
    (case_bool_decide as Hlive; [by intros [= <- <-]|]);
    (destruct (reg !! name) as [k|]; [|done]);
    (destruct config as [cfg|]; [|done]);
    (destruct (schema st k true ALLOW_EXTRA) as [[a|s|l]|e1] eqn:Hs; try done);
    try (destruct (validate s cfg) as [cfg'|e2] eqn:Hv; [done|];
         intros [= <- ->]; apply validate_raises in Hv as [fs ?]; done);
    intros [= <- ->]; apply schema_raises in Hs as [[a ?]|?]; done.
Qed.

Lemma step_ids_below_counter self o :
  no_explicit_id o → ids_below_counter self → ids_below_counter (step self o).
Proof.
  intros Ho [Hone Hkeys]. unfold ids_below_counter.
  destruct o as [st name config [i|] args|i]; simpl in *; [done| |].
  - destruct (create st self name config None args) as [self' r] eqn:H.
    apply create_cases in H as (_ & _ & H). simpl in *.
    destruct r as [obj|e].
    + destruct H as (_ & Hobjs & Hnext). rewrite Hobjs, Hnext. split; [lia|].
      intros i. rewrite lookup_insert. case_decide; [lia|].
      intros Hi%Hkeys. lia.
    + destruct H as (Hobjs & Hid). rewrite Hobjs.
      split; [destruct Hid as [->|[_ ->]]; lia|].
      intros i Hi%Hkeys. destruct Hid as [->|[_ ->]]; lia.
  - unfold destroy. case_bool_decide; simpl; [done|]. split; [done|].
    intros j. rewrite lookup_delete. case_decide; [by intros [? ?]|]. apply Hkeys.
Qed.

(** X11.  On a loader that is only ever used through [create] without id and
    [destroy], every id in the mapping lies between 1 and the counter, the
    counter's own value is free, and so a [create] without id never raises
    "already created". *)
Theorem auto_ids_never_conflict cls package ops :
  Forall no_explicit_id ops →
  let self := run (RegistryLoader_init cls package) ops in
  (∀ i, is_Some (_objects self !! i) → 1 ≤ i < _object_id self) ∧
  _objects self !! _object_id self = None ∧
  ∀ st name config args self' j,
    create st self name config None args
    ≠ (self', Raise (AttributeError_already_created j)).
Proof.
  intros Hops self.
  assert (ids_below_counter self) as [Hone Hkeys].
  { subst self. unfold run.
    assert (ids_below_counter (RegistryLoader_init cls package)) as Hinit.
    { split; simpl; [lia|]. intros i. rewrite lookup_empty. by intros [? ?]. }
    revert Hinit. generalize (RegistryLoader_init cls package).
    induction Hops as [|o ops Ho _ IH]; intros s Hs; simpl; [done|].
    apply IH. by apply step_ids_below_counter. }
  assert (_objects self !! _object_id self = None) as Hfree.
  { apply eq_None_not_Some. intros Hi%Hkeys. lia. }
  split_and!; [done|done|].
  intros st name config args self' j H.
  apply create_already_created in H as [-> Hlive]. simpl in Hlive.
  rewrite Hfree in Hlive. by destruct Hlive.
Qed.

Lemma auto_ids_never_conflict_witness :
  _objects (run example_loader
              [Create example_state "derived2" (Some ∅) None [];
               Destroy 1;
               Create example_state "derived2" None None []])
  !! 3 = None.
Proof.
  assert (Forall no_explicit_id
            [Create example_state "derived2" (Some ∅) None [];
             Destroy 1;
             Create example_state "derived2" None None []]) as Hops.
  { repeat constructor. }
  pose proof (proj1 (proj2 (auto_ids_never_conflict Base "ledfxcontroller.effects"
                              _ Hops))) as H.
  change (RegistryLoader_init Base "ledfxcontroller.effects")
    with example_loader in H.
  assert (_object_id (run example_loader
              [Create example_state "derived2" (Some ∅) None [];
               Destroy 1;
               Create example_state "derived2" None None []]) = 3) as Hid
    by (vm_compute; reflexivity).
  rewrite Hid in H. exact H.
Defined.

(** X12.  No sequence of [create] and [destroy] calls changes the class or
    the package of a loader, and the counter never goes down. *)
Theorem run_keeps_class_and_package self ops :
  _cls (run self ops) = _cls self ∧
  _package (run self ops) = _package self ∧
  _object_id self ≤ _object_id (run self ops).
Proof.
  unfold run. revert self. induction ops as [|o ops IH]; intros self; simpl.
  { split_and!; [done|done|lia]. }
  destruct (IH (step self o)) as (-> & -> & Hle).
  pose proof (step_counter_mono self o) as Hstep.
  split_and!; [| |lia].
  - destruct o as [st name config id args|i]; simpl.
    + destruct (create st self name config id args) as [self' r] eqn:H.
      by apply create_cases in H as (_ & ? & _).
    + unfold destroy. by case_bool_decide.
  - destruct o as [st name config id args|i]; simpl.
    + destruct (create st self name config id args) as [self' r] eqn:H.
      by apply create_cases in H as (? & _).
    + unfold destroy. by case_bool_decide.
Qed.

(** ** BaseRegistry: definitions, exclusions and who sees them *)

Lemma getattr_Some_exists st q attr v :
  getattr st q attr = Some v → is_Some (classes st !! q).
Proof.
  unfold getattr, mro. destruct (classes st !! q); [eauto|done].
Qed.

(** A class statement changes nothing that an existing class shows, and it
    changes the registry that an existing class sees by the new entry, when
    the new class shares that registry, and not at all otherwise. *)
Lemma define_class_frame st name module p body st' c r :
  wf_state st →
  in_registry_hierarchy st p →
  getattr st p "_registry" = None ∨ (∃ r0, registry_loc st p = Ok r0) →
  body !! "_registry" = None →
  define_class st name module p body = Ok (st', c) →
  registry_loc st' c = Ok r →
  (∀ q attr, is_Some (classes st !! q) →
             getattr st' q attr = getattr st q attr ∧ mro st' q = mro st q) ∧
  (∀ q r', registry_loc st q = Ok r' →
           registry_loc st' q = Ok r' ∧
           dict_at st' r'
           = if decide (r' = r)
             then <[registration_name module := c]> (dict_at st r')
             else dict_at st r').
Proof.
  intros Hwf Hin Hreg Hbody Hdef Hr.
  destruct (define_class_registers st name module p body Hwf Hin Hbody Hreg)
    as (st0 & r0 & own & Hdef0 & Hfresh & Hcl & Hd & Hr0 & _).
  rewrite Hdef in Hdef0. injection Hdef0 as <- ->.
  rewrite Hr in Hr0. injection Hr0 as <-.
  assert (∀ q attr, is_Some (classes st !! q) →
            getattr st' q attr = getattr st q attr ∧ mro st' q = mro st q)
    as Hold.
  { intros q attr [kq Hq].
    assert (q ≠ fresh (dom (classes st))) as Hne by congruence.
    assert (mro st' q = mro st q) as Hmro.
    { unfold mro. by rewrite Hcl, lookup_insert_ne. }
    split; [|done]. unfold getattr. rewrite Hmro.
    apply lookup_along_ext. unfold mro. rewrite Hq.
    destruct (Hwf q kq Hq) as [_ Hclosed].
    eapply Forall_impl; [exact Hclosed|]. intros d Hd'. simpl.
    rewrite Hcl, lookup_insert_ne; [done|].
    intros <-. rewrite Hfresh in Hd'. by destruct Hd'. }
  split; [done|].
  intros q r' [Hg Hdict]%registry_loc_Ok.
  pose proof (getattr_Some_exists _ _ _ _ Hg) as Hq.
  split.
  - apply registry_loc_Ok. split.
    + by rewrite (proj1 (Hold q "_registry" Hq)).
    + rewrite Hd. rewrite lookup_insert. by case_decide.
  - unfold dict_at at 1. rewrite Hd, lookup_insert.
    destruct (decide (r = r')) as [->|Hne].
    + by rewrite decide_True.
    + by rewrite decide_False.
Qed.

(** X13.  The decorator pattern: a class statement followed at once by
    [no_registration] on the new class.  Both succeed, and the registry is
    left without an entry under the class's name: it is what it was before
    when the name was free, and when another class held the name, that
    class's entry is gone as well. *)
Theorem define_then_exclude st name module p body :
  wf_state st →
  in_registry_hierarchy st p →
  getattr st p "_registry" = None ∨ (∃ r0, registry_loc st p = Ok r0) →
  body !! "_registry" = None →
  ∃ st1 c r st2,
    define_class st name module p body = Ok (st1, c) ∧
    registry_loc st1 c = Ok r ∧
    no_registration st1 c = Ok (st2, c) ∧
    dict_at st2 r = delete (registration_name module) (dict_at st r) ∧
    dict_at st2 r !! registration_name module = None ∧
    (dict_at st r !! registration_name module = None →
     dict_at st2 r = dict_at st r) ∧
    (∀ l, l ≠ r → dicts st2 !! l = dicts st !! l).
Proof.
  intros Hwf Hin Hreg Hbody.
  destruct (define_class_registers st name module p body Hwf Hin Hbody Hreg)
    as (st1 & r & own & Hdef & Hfresh & Hcl & Hd & Hr & _).
  set (c := fresh (dom (classes st))) in *.
  assert (module_of st1 c = module) as Hmod.
  { unfold module_of. by rewrite Hcl, lookup_insert_eq. }
  assert (dict_at st1 r = <[registration_name module := c]> (dict_at st r)) as Hat.
  { unfold dict_at at 1. by rewrite Hd, lookup_insert_eq. }
  eexists st1, c, r, _. split_and!; [done|done| | | | |].
  - unfold no_registration. rewrite Hr, Hmod. simpl.
    rewrite Hat, lookup_insert_eq. reflexivity.
  - unfold dict_at at 1. simpl. rewrite lookup_insert_eq. simpl.
    by rewrite delete_insert_eq.
  - unfold dict_at at 1. simpl. rewrite lookup_insert_eq. simpl.
    apply lookup_delete_eq.
  - intros Hnone. unfold dict_at at 1. simpl. rewrite lookup_insert_eq. simpl.
    by apply delete_insert_id.
  - intros l Hl. simpl. rewrite lookup_insert_ne by done.
    rewrite Hd. by rewrite lookup_insert_ne.
Qed.

Lemma define_then_exclude_witness :
  ∃ st1 c st2,
    define_class example_state "GradientEffect" "ledfxcontroller.effects.gradient"
                 Base ∅ = Ok (st1, c) ∧
    no_registration st1 c = Ok (st2, c) ∧
    dict_at st2 0%nat = dict_at example_state 0%nat.
Proof.
  assert (in_registry_hierarchy example_state Base) as Hin.
  { vm_compute. repeat constructor. }
  assert (registry_loc example_state Base = Ok 0%nat) as Hr
    by (vm_compute; reflexivity).
  destruct (define_then_exclude example_state "GradientEffect"
              "ledfxcontroller.effects.gradient" Base ∅ wf_example_state Hin
              (or_intror (ex_intro _ _ Hr)) (lookup_empty _))
    as (st1 & c & r & st2 & Hdef & Hr1 & Hex & _ & _ & Hsame & _).
  assert (r = 0%nat) as ->.
  { apply (f_equal (λ x, match x with Ok (s, d) => registry_loc s d
                                  | Raise e => Raise e end)) in Hdef.
    rewrite Hr1 in Hdef. vm_compute in Hdef. by injection Hdef. }
  exists st1, c, st2. split_and!; [exact Hdef|exact Hex|].
  apply Hsame. vm_compute. reflexivity.
Defined.

(** X14.  [no_registration] cannot be applied twice: after it has removed
    the entry, a second call on the same class raises [KeyError]. *)
Theorem exclude_twice st cls st' c :
  no_registration st cls = Ok (st', c) →
  no_registration st' cls
  = Raise (KeyError (registration_name (module_of st cls))).
Proof.
  unfold no_registration.
  destruct (registry_loc st cls) as [l|] eqn:Hl; simpl; [|done].
  destruct (dict_at st l !! _) as [T|] eqn:HT; [|done]. intros [= <- <-].
  pose proof Hl as [Hg Hd]%registry_loc_Ok.
  set (st' := PyState _ _).
  assert (registry_loc st' cls = Ok l) as ->.
  { apply registry_loc_Ok. split; [by rewrite (getattr_classes st)|].
    unfold st'. simpl. rewrite lookup_insert_eq. eauto. }
  simpl. assert (module_of st' cls = module_of st cls) as -> by done.
  unfold dict_at at 1. unfold st'. simpl. rewrite lookup_insert_eq. simpl.
  by rewrite lookup_delete_eq.
Qed.

Lemma exclude_twice_witness :
  ∃ st', no_registration example_state Derived2 = Ok (st', Derived2) ∧
         no_registration st' Derived2 = Raise (KeyError "derived2").
Proof.
  destruct (no_registration example_state Derived2) as [[st' c]|e] eqn:H.
  - assert (c = Derived2) as ->.
    { change c with (st', c).2.
      change (st', c) with (match Ok (st', c) with
                            | Ok x => x | Raise _ => (example_state, 0%nat) end).
      rewrite <- H. vm_compute. reflexivity. }
    exists st'. split; [reflexivity|].
    exact (exclude_twice example_state Derived2 st' Derived2 H).
  - exfalso. vm_compute in H. discriminate H.
Defined.

(** X15.  What [registry()] returns on an existing class after a class
    statement: the same dict object as before, with the new class's entry
    written into it when the new class shares that dict, and with its
    contents as before otherwise; a definition in one category is not seen
    in another. *)
Theorem definition_seen_through_shared_registry st name module p body st' c r :
  wf_state st →
  in_registry_hierarchy st p →
  getattr st p "_registry" = None ∨ (∃ r0, registry_loc st p = Ok r0) →
  body !! "_registry" = None →
  define_class st name module p body = Ok (st', c) →
  registry_loc st' c = Ok r →
  ∀ q r', registry_loc st q = Ok r' →
          registry_loc st' q = Ok r' ∧
          (r' = r → registry st' q
                    = Ok (<[registration_name module := c]> (dict_at st r'))) ∧
          (r' ≠ r → registry st' q = registry st q).
Proof.
  intros Hwf Hin Hreg Hbody Hdef Hr q r' Hq.
  destruct (define_class_frame st name module p body st' c r
              Hwf Hin Hreg Hbody Hdef Hr) as [_ Hframe].
  destruct (Hframe q r' Hq) as [Hq' Hat].
  split_and!; [done| |]; intros Hrr; unfold registry; rewrite Hq', ?Hq; simpl;
    rewrite Hat; [by rewrite decide_True|by rewrite decide_False].
Qed.

Lemma definition_seen_through_shared_registry_witness :
  ∃ st', define_class example_state "Rainbow" "ledfxcontroller.effects.rainbow"
                      Base ∅ = Ok (st', 8%nat) ∧
         registry st' Derived
         = Ok (<["rainbow" := 8%nat]> (dict_at example_state 0%nat)).
Proof.
  assert (in_registry_hierarchy example_state Base) as Hin.
  { vm_compute. repeat constructor. }
  assert (registry_loc example_state Base = Ok 0%nat) as Hr
    by (vm_compute; reflexivity).
  assert (registry_loc example_state Derived = Ok 0%nat) as Hq
    by (vm_compute; reflexivity).
  assert (∃ s, define_class example_state "Rainbow"
                 "ledfxcontroller.effects.rainbow" Base ∅ = Ok (s, 8%nat)
               ∧ registry_loc s 8%nat = Ok 0%nat) as (s & Hdef & Hr').
  { eexists. split; vm_compute; reflexivity. }
  exists s. split; [exact Hdef|].
  destruct (definition_seen_through_shared_registry example_state "Rainbow"
              "ledfxcontroller.effects.rainbow" Base ∅ s 8%nat 0%nat
              wf_example_state Hin (or_intror (ex_intro _ _ Hr)) (lookup_empty _)
              Hdef Hr' Derived 0%nat Hq) as (_ & Hshared & _).
  exact (Hshared eq_refl).
Defined.

(** X16.  Two classes defined directly under a base that sees no registry
    (two category roots under [BaseRegistry]) get a dict object each: after
    both statements the first class's registry holds the first class only
    and the second's the second only. *)
Theorem category_roots_get_own_registries st p n1 m1 body1 n2 m2 body2 :
  wf_state st →
  in_registry_hierarchy st p →
  getattr st p "_registry" = None →
  body1 !! "_registry" = None →
  body2 !! "_registry" = None →
  ∃ st1 c1 st2 c2 r1 r2,
    define_class st n1 m1 p body1 = Ok (st1, c1) ∧
    define_class st1 n2 m2 p body2 = Ok (st2, c2) ∧
    registry_loc st2 c1 = Ok r1 ∧
    registry_loc st2 c2 = Ok r2 ∧
    r1 ≠ r2 ∧
    registry st2 c1 = Ok {[ registration_name m1 := c1 ]} ∧
    registry st2 c2 = Ok {[ registration_name m2 := c2 ]}.
Proof.
  intros Hwf Hin Hnone Hb1 Hb2.
  destruct (define_class_registers st n1 m1 p body1 Hwf Hin Hb1 (or_introl Hnone))
    as (st1 & r1 & own1 & Hdef1 & Hfresh1 & Hcl1 & Hd1 & Hr1 & Hnew1 & _).
  destruct (Hnew1 Hnone) as [Hl1 _].
  pose proof (define_class_wf _ _ _ _ _ _ _ Hwf Hdef1) as Hwf1.
  destruct (define_class_frame st n1 m1 p body1 st1 _ r1 Hwf Hin
              (or_introl Hnone) Hb1 Hdef1 Hr1) as [Hold1 _].
  destruct (Hold1 p "_registry" (mro_exists _ _ Hin)) as [Hg1 Hmro1].
  assert (in_registry_hierarchy st1 p) as Hin1.
  { unfold in_registry_hierarchy. by rewrite Hmro1. }
  assert (getattr st1 p "_registry" = None) as Hnone1 by (by rewrite Hg1).
  destruct (define_class_registers st1 n2 m2 p body2 Hwf1 Hin1 Hb2
              (or_introl Hnone1))
    as (st2 & r2 & own2 & Hdef2 & Hfresh2 & Hcl2 & Hd2 & Hr2 & Hnew2 & _).
  destruct (Hnew2 Hnone1) as [Hl2 _].
  assert (r1 ≠ r2) as Hne.
  { intros <-. apply registry_loc_Ok in Hr1 as [_ [d Hd]]. congruence. }
  destruct (define_class_frame st1 n2 m2 p body2 st2 _ r2 Hwf1 Hin1
              (or_introl Hnone1) Hb2 Hdef2 Hr2) as [_ Hframe2].
  destruct (Hframe2 _ r1 Hr1) as [Hr1' Hat1].
  rewrite decide_False in Hat1 by done.
  eexists st1, _, st2, _, r1, r2.
  split_and!; [done|done|done|done|done| |].
  - unfold registry. rewrite Hr1'. simpl. rewrite Hat1.
    unfold dict_at. rewrite Hd1, lookup_insert_eq. simpl.
    unfold dict_at. rewrite Hl1. simpl. by rewrite insert_empty.
  - unfold registry. rewrite Hr2. simpl.
    unfold dict_at. rewrite Hd2, lookup_insert_eq. simpl.
    unfold dict_at. rewrite Hl2. simpl. by rewrite insert_empty.
Qed.

Lemma category_roots_get_own_registries_witness :
  ∃ st1 c1 st2 c2,
    define_class initial_state "Effect" "ledfxcontroller.effects"
                 BaseRegistry ∅ = Ok (st1, c1) ∧
    define_class st1 "Device" "ledfxcontroller.devices" BaseRegistry ∅
    = Ok (st2, c2) ∧
    registry st2 c1 = Ok {[ "effects" := c1 ]} ∧
    registry st2 c2 = Ok {[ "devices" := c2 ]}.
Proof.
  assert (in_registry_hierarchy initial_state BaseRegistry) as Hin.
  { vm_compute. repeat constructor. }
  assert (getattr initial_state BaseRegistry "_registry" = None) as Hnone
    by (vm_compute; reflexivity).
  destruct (category_roots_get_own_registries initial_state BaseRegistry
              "Effect" "ledfxcontroller.effects" ∅
              "Device" "ledfxcontroller.devices" ∅
              wf_initial_state Hin Hnone (lookup_empty _) (lookup_empty _))
    as (st1 & c1 & st2 & c2 & r1 & r2 & H1 & H2 & _ & _ & _ & Hreg1 & Hreg2).
  exists st1, c1, st2, c2. split_and!; [exact H1|exact H2|exact Hreg1|exact Hreg2].
Defined.

(** ** Schema composition: edge cases *)

Lemma compose_non_schema st attr cs acc c v :
  wf_state st →
  Forall (λ d, is_Some (classes st !! d)) cs →
  c ∈ cs →
  declared_here st attr c = Some v →
  v ≠ VAtom ANone →
  (∀ s, v ≠ VSchema s) →
  compose st attr cs acc = Raise (AttributeError_no_attribute "schema").
Proof.
  intros Hwf Hcs Hc Hv Hnone Hschema. revert acc.
  induction Hcs as [|d cs [k Hk] _ IH]; intros acc; [by apply elem_of_nil in Hc|].
  simpl. rewrite (getattr_explicit_declared st attr d k Hwf Hk). simpl.
  apply elem_of_cons in Hc as [<-|Hc].
  - rewrite Hv. simpl. destruct v as [[| | |]|s|l]; try done. by destruct (Hschema s).
  - destruct (default (VAtom ANone) (declared_here st attr d)) as [[| | |]|s|l];
      try done; by apply IH.
Qed.

(** X17.  When some class of the chain explicitly binds the schema attribute
    to something that is neither a schema nor [None], [schema()] raises
    [AttributeError] (the value has no [.schema]), whatever the other classes
    declare. *)
Theorem schema_rejects_non_schema_declaration st T attr extra c v :
  wf_state st →
  _schema_attr st T = Ok attr →
  c ∈ mro st T →
  declared_here st attr c = Some v →
  v ≠ VAtom ANone →
  (∀ s, v ≠ VSchema s) →
  schema st T true extra = Raise (AttributeError_no_attribute "schema").
Proof.
  intros Hwf Hattr Hc Hv Hnone Hschema. unfold schema. rewrite Hattr. simpl.
  rewrite (compose_non_schema st attr _ _ c v); try done.
  - apply Forall_rev. unfold mro.
    destruct (classes st !! T) as [k|] eqn:Hk; [|constructor].
    by destruct (Hwf T k Hk).
  - apply list_elem_of_In, in_rev. rewrite rev_involutive.
    by apply list_elem_of_In.
Qed.

Lemma wf_broken_state : wf_state broken_state.
Proof.
  unfold broken_state.
  destruct (define_class example_state _ _ _ _) as [[st c]|] eqn:H;
    [|apply wf_example_state].
  by apply define_class_wf in H; [|apply wf_example_state].
Qed.

Lemma schema_rejects_non_schema_declaration_witness :
  schema broken_state Broken true ALLOW_EXTRA
  = Raise (AttributeError_no_attribute "schema").
Proof.
  assert (_schema_attr broken_state Broken = Ok "CONFIG_SCHEMA") as Hattr
    by (vm_compute; reflexivity).
  assert (Broken ∈ mro broken_state Broken) as Hin.
  { vm_compute. repeat constructor. }
  assert (declared_here broken_state "CONFIG_SCHEMA" Broken
          = Some (VAtom (AInt 5))) as Hv by (vm_compute; reflexivity).
  apply (schema_rejects_non_schema_declaration broken_state Broken
           "CONFIG_SCHEMA" ALLOW_EXTRA Broken (VAtom (AInt 5))
           wf_broken_state Hattr Hin Hv); [discriminate|intros s; discriminate].
Defined.





(** ** Schema composition along the method resolution order *)

Lemma getattr_explicit_in_mro st attr c :
  getattr_explicit st c attr [VAtom ANone]
  = Ok (default (VAtom ANone) (explicit_in_mro st attr c)).
Proof.
  unfold getattr_explicit, hasattr_explicit, explicit_in_mro. simpl.
  destruct (getattr st c attr) as [v|]; simpl; [|done].
  by destruct (py_ne st v _).
Qed.

Lemma compose_foldl_in_mro st attr cs acc :
  schema_values st attr cs →
  compose st attr cs acc = Ok (foldl (merge_in_mro st attr) acc cs).
Proof.
  revert acc. induction cs as [|c cs IH]; intros acc Hval; simpl; [done|].
  rewrite getattr_explicit_in_mro. simpl.
  assert (schema_values st attr cs) as Hval'.
  { intros d v Hd. apply Hval. by apply list_elem_of_further. }
  unfold merge_in_mro at 2. unfold fragment_in_mro.
  destruct (explicit_in_mro st attr c) as [v|] eqn:Hv; simpl; [|by apply IH].
  destruct (Hval c v (list_elem_of_here _ _) Hv) as [->|[s ->]]; by apply IH.
Qed.

Lemma foldl_merge_in_mro_extra st attr cs acc :
  schema_extra (foldl (merge_in_mro st attr) acc cs) = schema_extra acc.
Proof.
  revert acc. induction cs as [|c cs IH]; intros acc; simpl; [done|].
  rewrite IH. unfold merge_in_mro. by destruct (fragment_in_mro st attr c).
Qed.

Lemma foldl_merge_in_mro_lookup st attr chain acc f :
  schema_fields (foldl (merge_in_mro st attr) acc (rev chain)) !! f
  = match first_in_mro st attr chain f with
    | Some fld => Some fld
    | None => schema_fields acc !! f
    end.
Proof.
  induction chain as [|c chain IH]; simpl; [done|].
  rewrite foldl_app. simpl. unfold merge_in_mro at 1.
  destruct (fragment_in_mro st attr c) as [fs|]; simpl; [|exact IH].
  rewrite lookup_union. destruct (fs !! f) as [fld|]; simpl.
  - by destruct (schema_fields _ !! f).
  - rewrite IH. rewrite (left_id_L None (∪)). done.
Qed.

(** A class whose [__mro__] starts with itself is explicit only through a
    value that it binds itself. *)
Lemma explicit_in_mro_own st attr c k :
  classes st !! c = Some k →
  head (cls_mro k) = Some c →
  explicit_in_mro st attr c
  = cls_dict k !! attr ≫= λ v,
      if py_ne st v (getattr_super st c attr) then Some v else None.
Proof.
  intros Hk Hhead. unfold explicit_in_mro, getattr_super, getattr, mro.
  rewrite Hk. destruct (cls_mro k) as [|d rest]; [done|].
  injection Hhead as ->. simpl. unfold own_attr at 1. rewrite Hk. simpl.
  destruct (cls_dict k !! attr) as [v|]; simpl; [done|].
  destruct (lookup_along st rest attr) as [v|]; simpl; [|done].
  by rewrite py_ne_refl.
Qed.

(** With one base per class, past the class means on its parent. *)
Lemma explicit_in_mro_single_base st attr c k :
  wf_state st →
  classes st !! c = Some k →
  explicit_in_mro st attr c = declared_here st attr c.
Proof.
  intros Hwf Hk.
  destruct (explicit_test st attr c k Hwf Hk) as [Hsuper Hget].
  unfold explicit_in_mro, declared_here. rewrite Hsuper, Hget, Hk. simpl.
  destruct (cls_dict k !! attr) as [v|]; simpl; [done|].
  destruct (cls_base k) as [p|]; [|done].
  destruct (getattr st p attr) as [v|]; simpl; [|done].
  by rewrite py_ne_refl.
Qed.

(** C2 (as amended).  On any class [T] along whose [__mro__] the values
    declared explicitly under the schema attribute are schemas (or [None]),
    [schema(extended=True, extra)] returns the schema that results from
    walking [T.__mro__] from the root to [T] and merging, in that order, the
    fragment of each class that declares one explicitly.  Explicit means that
    the value bound on the class itself differs from the value visible past
    the class in its own [__mro__]; for a class with one base this is the
    value visible on its parent.  The schema carries the policy [extra], and
    every field shows the declaration of the first class of the [__mro__]
    (the most derived) whose fragment names it; a field that no such class
    names again keeps the declaration of the class further up. *)
Theorem composed_schema_follows_mro st T attr extra :
  _schema_attr st T = Ok attr →
  schema_values st attr (mro st T) →
  ∃ S,
    schema st T true extra = Ok (VSchema S) ∧
    S = foldl (merge_in_mro st attr) (MkSchema ∅ extra) (rev (mro st T)) ∧
    schema_extra S = extra ∧
    (∀ f, schema_fields S !! f = first_in_mro st attr (mro st T) f) ∧
    (∀ c k, classes st !! c = Some k →
            head (cls_mro k) = Some c →
            explicit_in_mro st attr c
            = cls_dict k !! attr ≫= λ v,
                if py_ne st v (getattr_super st c attr) then Some v else None) ∧
    (wf_state st →
     ∀ c, is_Some (classes st !! c) →
          explicit_in_mro st attr c = declared_here st attr c).
Proof.
  intros Hattr Hval. eexists. split_and!; [|reflexivity| | | |].
  - unfold schema. rewrite Hattr. simpl.
    rewrite compose_foldl_in_mro; [done|].
    intros c v Hc. apply Hval.
    apply list_elem_of_In, in_rev. by apply list_elem_of_In.
  - apply foldl_merge_in_mro_extra.
  - intros f. rewrite foldl_merge_in_mro_lookup. simpl.
    rewrite lookup_empty. by destruct (first_in_mro st attr (mro st T) f).
  - intros c k. apply explicit_in_mro_own.
  - intros Hwf c [k Hk]. by eapply explicit_in_mro_single_base.
Qed.

Lemma composed_schema_follows_mro_witness :
  ∃ S, schema diamond_state Combined true ALLOW_EXTRA = Ok (VSchema S) ∧
       schema_extra S = ALLOW_EXTRA ∧
       schema_fields S !! "a" = Some (Field TInt false (Some (AInt 1))).
Proof.
  assert (_schema_attr diamond_state Combined = Ok "CONFIG_SCHEMA") as Hattr
    by (vm_compute; reflexivity).
  assert (schema_values diamond_state "CONFIG_SCHEMA" (mro diamond_state Combined))
    as Hval.
  { intros d v Hd Hv.
    assert (mro diamond_state Combined
            = [Combined; Mixin; TextEffect; Effect; BaseRegistry; ABC; object_cls])
      as Hmro by (vm_compute; reflexivity).
    rewrite Hmro in Hd. rewrite !elem_of_cons, elem_of_nil in Hd.
    destruct Hd as [->|[->|[->|[->|[->|[->|[->|[]]]]]]]]; vm_compute in Hv;
      first [discriminate Hv | injection Hv as <-; right; eexists; reflexivity]. }
  destruct (composed_schema_follows_mro diamond_state Combined "CONFIG_SCHEMA"
              ALLOW_EXTRA Hattr Hval) as (S & Hs & _ & Hextra & Hlk & _).
  exists S. split_and!; [exact Hs|exact Hextra|].
  rewrite Hlk. vm_compute. reflexivity.
Defined.

(** C2 (as stated) fails on the diamond.  [Combined(Mixin, TextEffect)] binds
    [{a: int, default 1}], the very value that is visible on its parent
    [Mixin] (inherited from [Effect]): by the claim's test it declares
    nothing, and the most derived declaration of [a] is [TextEffect]'s
    [{a: str, required}].  The code compares with the value visible past
    [Combined] in its [__mro__], which is [TextEffect]'s, finds [Combined]
    explicit, and the composed schema has [a: int, default 1]. *)
Lemma diamond_redeclaration_wins :
  diamond_program = Ok (diamond_state, (Effect, Mixin, TextEffect, Combined)) ∧
  mro diamond_state Combined
  = [Combined; Mixin; TextEffect; Effect; BaseRegistry; ABC; object_cls] ∧
  own_attr diamond_state Combined "CONFIG_SCHEMA" = Some (VSchema Base_schema) ∧
  getattr diamond_state Mixin "CONFIG_SCHEMA" = Some (VSchema Base_schema) ∧
  declared_here diamond_state "CONFIG_SCHEMA" Combined = None ∧
  most_derived diamond_state "CONFIG_SCHEMA" (mro diamond_state Combined) "a"
  = Some (Field TStr true None) ∧
  hasattr_explicit diamond_state Combined "CONFIG_SCHEMA" = true ∧
  schema diamond_state Combined true ALLOW_EXTRA
  = Ok (VSchema (MkSchema {[ "a" := Field TInt false (Some (AInt 1)) ]}
                          ALLOW_EXTRA)).
Proof. split_and!; vm_compute; reflexivity. Qed.
